(** * Bike rental system: pricing, category resolver, rental lifecycle, report

    A shallow embedding of [bike_rental_system.py] and the properties its
    specification states about it.

    Number model.  Python's [float] values (rates, costs, durations) are
    embedded through the interface [Arith]: the promotion of an [int], [+],
    [*] and the literals the program uses.  The pricing code is written once
    over that interface and read at two instances:
    - [Qc], exact rational arithmetic, in which [0.8] is 4/5; every theorem
      about the lifecycle and the report is stated at this instance;
    - [float], IEEE 754 binary64 as CPython computes, used to evaluate the
      concrete prices quoted by the specification bit for bit.
    Python's [int] is unbounded and is [Z]; [//] and [%] with a positive
    divisor are [Z.div] and [Z.modulo].

    Store model.  Each SQLite table with an [INTEGER PRIMARY KEY] is a finite
    map from row id to a record of the remaining columns.  A call opens its
    own connection, whose uncommitted view is the field [conn]; [commit]
    publishes it to [db].  Every [print], statement, [commit] and [close] is
    appended to [trace], so that "before any mutation" and "without reading"
    are statements about the trace.  Integer arguments are taken to fit
    SQLite's 64-bit INTEGER, so that binding a parameter never raises and no
    statement of a [try] block fails; the [except] handlers are therefore not
    reached and are not part of the model. *)

From Stdlib Require Import ZArith QArith Qcanon Qround.
From Stdlib Require Import Floats.PrimFloat Floats.SpecFloat Floats.FloatOps.
From stdpp Require Import gmap strings list fin_maps numbers sorting.

Set Warnings "-inexact-float".

Local Open Scope Z_scope.

(** ** Arithmetic interface *)

Class Arith (F : Type) := {
  of_int : Z -> F;          (* int operand promoted in  int * float  *)
  add : F -> F -> F;
  mul : F -> F -> F;
  lit_0_8 : F;              (* the literal 0.8 *)
  lit_0_9 : F;              (* the literal 0.9 *)
  lit_2_0 : F               (* the literal 2.0 *)
}.

Declare Scope arith_scope.
Delimit Scope arith_scope with A.
Infix "+" := add : arith_scope.
Infix "*" := mul : arith_scope.

#[export] Instance Qc_Arith : Arith Qc := {|
  of_int := Qc_of_Z;
  add := Qcplus;
  mul := Qcmult;
  lit_0_8 := Q2Qc 0.8;
  lit_0_9 := Q2Qc 0.9;
  lit_2_0 := Q2Qc 2.0
|}.

(** [int -> float] as CPython does it: the nearest binary64 value, ties to
    even.  (CPython raises OverflowError where this yields [infinity], from
    about 2^1024 on.) *)
Definition float_of_Z (z : Z) : float :=
  SF2Prim (binary_normalize prec emax z 0 false).

#[export] Instance binary64_Arith : Arith float := {|
  of_int := float_of_Z;
  add := PrimFloat.add;
  mul := PrimFloat.mul;
  lit_0_8 := 0.8%float;
  lit_0_9 := 0.9%float;
  lit_2_0 := 2.0%float
|}.

(** ** Bikes and pricing (class [Bike] and its four subclasses) *)

Inductive bike_class := MountainBike | RoadBike | HybridBike | ElectricBike.

Section Pricing.
Context {F : Type} `{Arith F}.

(** An instance of [Bike]: the five attributes set by [__init__] and the
    concrete class the object was created from. *)
Record Bike := mkBike {
  class_of : bike_class;
  bike_id : Z;
  bike_type : string;
  model : string;
  hourly_rate : F;
  daily_rate : F
}.

Definition MountainBike_calculate_rental_cost (self : Bike) (hours : Z) : F :=
  if hours <=? 4 then
    (of_int hours * hourly_rate self)%A
  else
    let days := hours / 24 in
    let remaining_hours := hours mod 24 in
    ((of_int days * daily_rate self)
     + (of_int remaining_hours * hourly_rate self * lit_0_8))%A.

Definition RoadBike_calculate_rental_cost (self : Bike) (hours : Z) : F :=
  if hours <=? 3 then
    (of_int hours * hourly_rate self)%A
  else
    let days := hours / 24 in
    let remaining_hours := hours mod 24 in
    ((of_int days * daily_rate self)
     + (of_int remaining_hours * hourly_rate self))%A.

Definition HybridBike_calculate_rental_cost (self : Bike) (hours : Z) : F :=
  if hours <=? 6 then
    (of_int hours * hourly_rate self)%A
  else
    let days := hours / 24 in
    let remaining_hours := hours mod 24 in
    let daily_cost := (of_int days * daily_rate self)%A in
    let hourly_cost := (of_int remaining_hours * hourly_rate self * lit_0_9)%A in
    (daily_cost + hourly_cost)%A.

Definition ElectricBike_calculate_rental_cost (self : Bike) (hours : Z) : F :=
  let base_cost :=
    if hours <=? 8 then (of_int hours * hourly_rate self)%A
    else (of_int (hours / 24) * daily_rate self
          + of_int (hours mod 24) * hourly_rate self)%A in
  let battery_fee := (of_int hours * lit_2_0)%A in
  (base_cost + battery_fee)%A.

(** Method dispatch on the object's class. *)
Definition calculate_rental_cost (self : Bike) (hours : Z) : F :=
  match class_of self with
  | MountainBike => MountainBike_calculate_rental_cost self hours
  | RoadBike => RoadBike_calculate_rental_cost self hours
  | HybridBike => HybridBike_calculate_rental_cost self hours
  | ElectricBike => ElectricBike_calculate_rental_cost self hours
  end.

(** *** [BikeFactory.create_bike] *)

Definition bike_classes : gmap string bike_class :=
  list_to_map [("Mountain", MountainBike); ("Road", RoadBike);
               ("Hybrid", HybridBike); ("Electric", ElectricBike)]%string.

Definition create_bike (bike_data : Z * string * string * F * F) : Bike :=
  let '(bike_id, bike_type, model, hourly_rate, daily_rate) := bike_data in
  let bike_class := default HybridBike (bike_classes !! bike_type) in
  mkBike bike_class bike_id bike_type model hourly_rate daily_rate.

End Pricing.

Arguments Bike : clear implicits.

(** From here on all amounts are exact rationals. *)
Local Open Scope Qc_scope.

(** ** Class [Customer] *)

Record Customer := mkCustomer {
  customer_id : Z;
  name : string;
  email : string;
  phone : string
}.

(** ** The database file

    [datetime] values are counted in microseconds, the resolution of
    Python's [datetime]. *)

Definition datetime := Z.

Module Bikes.
Record row := mk {
  bike_type : string;
  model : string;
  hourly_rate : Qc;
  daily_rate : Qc;
  is_available : bool;
  last_maintenance : option string
}.
Definition set_is_available (v : bool) (b : row) : row :=
  mk (bike_type b) (model b) (hourly_rate b) (daily_rate b) v (last_maintenance b).
End Bikes.

Module Customers.
Record row := mk {
  name : string;
  email : string;
  phone : string;
  created_at : datetime
}.
End Customers.

Module Rentals.
Record row := mk {
  customer_id : Z;
  bike_id : Z;
  rental_start : datetime;
  rental_end : option datetime;
  planned_duration_hours : Z;
  actual_duration_hours : option Qc;
  base_cost : Qc;
  additional_charges : Qc;
  total_cost : Qc;
  status : string
}.
End Rentals.

Record database := mkDatabase {
  bikes : gmap Z Bikes.row;
  customers : gmap Z Customers.row;
  rentals : gmap Z Rentals.row;
  sqlite_sequence_rentals : Z      (* largest rental id ever handed out *)
}.

(** *** The program's SQL statements

    Each is given as a function on the database; [statement] below names
    them, indexed by what [fetchone()] / [lastrowid] hands back. *)

(** [SELECT * FROM customers WHERE email = ?] *)
Definition select_customer_by_email (email : string) (d : database)
  : option (Z * Customers.row) :=
  head (filter (λ kv, Customers.email kv.2 = email) (map_to_list (customers d))).

(** [SELECT * FROM bikes WHERE id = ? AND is_available = 1] *)
Definition select_available_bike (bike_id : Z) (d : database)
  : option (Z * Bikes.row) :=
  match bikes d !! bike_id with
  | Some b => if Bikes.is_available b then Some (bike_id, b) else None
  | None => None
  end.

(** AUTOINCREMENT: one more than the largest row id that ever existed. *)
Definition max_rowid {V} (m : gmap Z V) : Z :=
  foldr (λ kv acc, Z.max kv.1 acc) 0%Z (map_to_list m).

Definition next_rental_id (d : database) : Z :=
  (Z.max (sqlite_sequence_rentals d) (max_rowid (rentals d)) + 1)%Z.

(** [INSERT INTO rentals (customer_id, bike_id, rental_start,
    planned_duration_hours, base_cost, total_cost) VALUES (?, ?, ?, ?, ?, ?)];
    the columns left out take NULL or their DEFAULT. *)
Definition insert_rental (customer_id bike_id : Z) (rental_start : datetime)
    (planned_duration_hours : Z) (base_cost total_cost : Qc) (d : database)
  : Z * database :=
  let rowid := next_rental_id d in
  let r := Rentals.mk customer_id bike_id rental_start None
             planned_duration_hours None base_cost 0 total_cost "ACTIVE" in
  (rowid, mkDatabase (bikes d) (customers d) (<[rowid := r]> (rentals d)) rowid).

(** [UPDATE bikes SET is_available = 0 WHERE id = ?]  and the same with 1. *)
Definition update_bike_availability (v : bool) (bike_id : Z) (d : database)
  : database :=
  mkDatabase (alter (Bikes.set_is_available v) bike_id (bikes d))
             (customers d) (rentals d) (sqlite_sequence_rentals d).

(** [SELECT r.*, b.* FROM rentals r JOIN bikes b ON r.bike_id = b.id
    WHERE r.id = ? AND r.customer_id = ? AND r.status = 'ACTIVE'] *)
Definition select_active_rental (rental_id customer_id : Z) (d : database)
  : option (Rentals.row * Bikes.row) :=
  match rentals d !! rental_id with
  | Some r =>
      if bool_decide (Rentals.customer_id r = customer_id
                      ∧ Rentals.status r = "ACTIVE"%string)
      then match bikes d !! Rentals.bike_id r with
           | Some b => Some (r, b)
           | None => None
           end
      else None
  | None => None
  end.

(** [UPDATE rentals SET rental_end = ?, actual_duration_hours = ?,
    additional_charges = ?, total_cost = ?, status = 'COMPLETED' WHERE id = ?] *)
Definition complete_rental (rental_end : datetime)
    (actual_duration additional_charges total_cost : Qc) (r : Rentals.row)
  : Rentals.row :=
  Rentals.mk (Rentals.customer_id r) (Rentals.bike_id r) (Rentals.rental_start r)
    (Some rental_end) (Rentals.planned_duration_hours r) (Some actual_duration)
    (Rentals.base_cost r) additional_charges total_cost "COMPLETED".

Definition update_rental_on_return (rental_end : datetime)
    (actual_duration additional_charges total_cost : Qc) (rental_id : Z)
    (d : database) : database :=
  mkDatabase (bikes d) (customers d)
    (alter (complete_rental rental_end actual_duration additional_charges total_cost)
           rental_id (rentals d))
    (sqlite_sequence_rentals d).

(** SQL aggregates over a column: NULL on no rows. *)
Definition sum_list (l : list Qc) : Qc := foldr Qcplus 0 l.

Definition sql_sum (l : list Qc) : option Qc :=
  match l with [] => None | _ => Some (sum_list l) end.

Definition sql_avg (l : list Qc) : option Qc :=
  match l with
  | [] => None
  | _ => Some (sum_list l / Qc_of_Z (Z.of_nat (length l)))
  end.

Definition rows_with_status (st : string) (d : database) : list Rentals.row :=
  filter (λ r, Rentals.status r = st) (map_to_list (rentals d)).*2.

(** [SELECT SUM(total_cost) FROM rentals WHERE status = "COMPLETED"] *)
Definition select_sum_completed (d : database) : option Qc :=
  sql_sum (Rentals.total_cost <$> rows_with_status "COMPLETED" d).

(** [SELECT COUNT( * ) FROM rentals] *)
Definition select_count_rentals (d : database) : Z :=
  Z.of_nat (length (map_to_list (rentals d))).

(** [SELECT COUNT( * ) FROM rentals WHERE status = "ACTIVE"] *)
Definition select_count_active (d : database) : Z :=
  Z.of_nat (length (rows_with_status "ACTIVE" d)).

(** [SELECT AVG(actual_duration_hours) FROM rentals
    WHERE actual_duration_hours IS NOT NULL] *)
Definition select_avg_duration (d : database) : option Qc :=
  sql_avg (omap Rentals.actual_duration_hours (map_to_list (rentals d)).*2).

(** [SELECT b.bike_type, COUNT( * ) AS rental_count FROM rentals r
    JOIN bikes b ON r.bike_id = b.id GROUP BY b.bike_type
    ORDER BY rental_count DESC LIMIT 1].  Among groups of equal count SQL
    leaves the choice open; here the first group listed wins. *)
Definition joined_bike_types (d : database) : list string :=
  omap (λ r, Bikes.bike_type <$> bikes d !! Rentals.bike_id r)
       (map_to_list (rentals d)).*2.

Definition group_count (l : list string) : list (string * Z) :=
  (λ t, (t, Z.of_nat (length (filter (λ x, x = t) l)))) <$> remove_dups l.

Fixpoint order_desc_limit_1 (groups : list (string * Z)) : option (string * Z) :=
  match groups with
  | [] => None
  | g :: groups' =>
      match order_desc_limit_1 groups' with
      | Some g' => if (g.2 <? g'.2)%Z then Some g' else Some g
      | None => Some g
      end
  end.

Definition select_popular_bike (d : database) : option (string * Z) :=
  order_desc_limit_1 (group_count (joined_bike_types d)).

Inductive statement : Type -> Type :=
| SELECT_customer_by_email (email : string)
    : statement (option (Z * Customers.row))
| SELECT_available_bike (bike_id : Z)
    : statement (option (Z * Bikes.row))
| INSERT_rental (customer_id bike_id : Z) (rental_start : datetime)
    (planned_duration_hours : Z) (base_cost total_cost : Qc)
    : statement Z
| UPDATE_bike_availability (v : bool) (bike_id : Z)
    : statement unit
| SELECT_active_rental (rental_id customer_id : Z)
    : statement (option (Rentals.row * Bikes.row))
| UPDATE_rental_on_return (rental_end : datetime)
    (actual_duration additional_charges total_cost : Qc) (rental_id : Z)
    : statement unit
| SELECT_sum_completed : statement (option Qc)
| SELECT_count_rentals : statement Z
| SELECT_count_active : statement Z
| SELECT_popular_bike : statement (option (string * Z))
| SELECT_avg_duration : statement (option Qc).

Definition run {A} (s : statement A) (d : database) : A * database :=
  match s in statement T return T * database with
  | SELECT_customer_by_email e => (select_customer_by_email e d, d)
  | SELECT_available_bike b => (select_available_bike b d, d)
  | INSERT_rental c b t0 p bc tc => insert_rental c b t0 p bc tc d
  | UPDATE_bike_availability v b => (tt, update_bike_availability v b d)
  | SELECT_active_rental r c => (select_active_rental r c d, d)
  | UPDATE_rental_on_return t1 a ac tc r =>
      (tt, update_rental_on_return t1 a ac tc r d)
  | SELECT_sum_completed => (select_sum_completed d, d)
  | SELECT_count_rentals => (select_count_rentals d, d)
  | SELECT_count_active => (select_count_active d, d)
  | SELECT_popular_bike => (select_popular_bike d, d)
  | SELECT_avg_duration => (select_avg_duration d, d)
  end.

(** A statement that writes. *)
Definition is_write {A} (s : statement A) : bool :=
  match s with
  | INSERT_rental _ _ _ _ _ _ | UPDATE_bike_availability _ _
  | UPDATE_rental_on_return _ _ _ _ _ => true
  | _ => false
  end.

(** ** The running system *)

Inductive message :=
| PleaseLoginFirst                  (* "Please login first!" *)
| WelcomeBack (name : string)       (* "Welcome back, ...!" *)
| CustomerNotFound                  (* "Customer not found!" *)
| DurationMustBeGreaterThan0        (* "Duration must be greater than 0 hours!" *)
| BikeNotAvailable                  (* "Bike not available or doesn't exist!" *)
| RentalConfirmed (rental_id : Z) (bike : Bike Qc) (duration_hours : Z)
    (total_cost : Qc) (rental_start : datetime)
| ActiveRentalNotFound              (* "Active rental not found!" *)
| BikeReturned (rental_id : Z) (bike : Bike Qc) (planned_duration : Z)
    (actual_duration additional_charges_new final_cost : Qc)
| BusinessReport (total_revenue : Qc) (total_rentals active_rentals : Z)
    (popular_bike : option string) (avg_duration : Qc).

Inductive event :=
| Print (m : message)
| Connect                               (* db_manager.get_connection() *)
| Execute {A} (s : statement A)         (* cursor.execute(...) *)
| Commit                                (* conn.commit() *)
| Close.                                (* conn.close() *)

Record state := mkState {
  db : database;                        (* committed contents of the file *)
  conn : database;                      (* what the open connection sees *)
  current_customer : option Customer;   (* self.current_customer *)
  trace : list event                    (* oldest first *)
}.

Definition M (A : Type) : Type := state -> A * state.

Definition ret {A} (a : A) : M A := fun s => (a, s).

Definition bind {A B} (m : M A) (k : A -> M B) : M B :=
  fun s => let (a, s') := m s in k a s'.

Notation "x <- m ;; k" := (bind m (fun x => k))
  (at level 20, m at level 99, k at level 200, only parsing).
Notation "m ;; k" := (bind m (fun _ => k))
  (at level 100, k at level 200, only parsing, right associativity).

Definition emit (e : event) (s : state) : state :=
  mkState (db s) (conn s) (current_customer s) (trace s ++ [e]).

Definition print (m : message) : M unit :=
  fun s => (tt, emit (Print m) s).

Definition get_connection : M unit :=
  fun s => (tt, emit Connect (mkState (db s) (db s) (current_customer s) (trace s))).

Definition execute {A} (stmt : statement A) : M A :=
  fun s => let (a, d) := run stmt (conn s) in
           (a, emit (Execute stmt) (mkState (db s) d (current_customer s) (trace s))).

Definition commit : M unit :=
  fun s => (tt, emit Commit (mkState (conn s) (conn s) (current_customer s) (trace s))).

(** Closing drops whatever was not committed. *)
Definition close : M unit :=
  fun s => (tt, emit Close (mkState (db s) (db s) (current_customer s) (trace s))).

Definition get_current_customer : M (option Customer) :=
  fun s => (current_customer s, s).

Definition set_current_customer (c : Customer) : M unit :=
  fun s => (tt, mkState (db s) (conn s) (Some c) (trace s)).

(** [x or 0] on what [fetchone()[0]] returned: [None] and a zero are falsy. *)
Definition or_0 (x : option Qc) : Qc :=
  match x with
  | Some v => if bool_decide (v = 0) then 0 else v
  | None => 0
  end.

(** [timedelta.total_seconds()] *)
Definition total_seconds (delta : Z) : Qc := Qc_of_Z delta / Qc_of_Z 1000000.

Definition login_customer (email : string) : M bool :=
  get_connection ;;
  customer_data <- execute (SELECT_customer_by_email email) ;;
  match customer_data with
  | Some (id, c) =>
      set_current_customer
        (mkCustomer id (Customers.name c) (Customers.email c) (Customers.phone c)) ;;
      print (WelcomeBack (Customers.name c)) ;;
      close ;;
      ret true
  | None =>
      print CustomerNotFound ;;
      close ;;
      ret false
  end.

(** [now] is what [datetime.now()] returns during the call. *)
Definition rent_bike (now : datetime) (bike_id duration_hours : Z) : M bool :=
  current <- get_current_customer ;;
  match current with
  | None =>
      print PleaseLoginFirst ;;
      ret false
  | Some customer =>
      if (duration_hours <=? 0)%Z then
        print DurationMustBeGreaterThan0 ;;
        ret false
      else
        get_connection ;;
        bike_data <- execute (SELECT_available_bike bike_id) ;;
        match bike_data with
        | None =>
            print BikeNotAvailable ;;
            close ;;
            ret false
        | Some (id, b) =>
            let bike := create_bike (id, Bikes.bike_type b, Bikes.model b,
                                     Bikes.hourly_rate b, Bikes.daily_rate b) in
            let total_cost := calculate_rental_cost bike duration_hours in
            let rental_start := now in
            rental_id <- execute (INSERT_rental (customer_id customer) bike_id
                                    rental_start duration_hours total_cost total_cost) ;;
            execute (UPDATE_bike_availability false bike_id) ;;
            commit ;;
            print (RentalConfirmed rental_id bike duration_hours total_cost rental_start) ;;
            close ;;
            ret true
        end
  end.

Definition return_bike (now : datetime) (rental_id : Z) : M bool :=
  current <- get_current_customer ;;
  match current with
  | None =>
      print PleaseLoginFirst ;;
      ret false
  | Some customer =>
      get_connection ;;
      rental_data <- execute (SELECT_active_rental rental_id (customer_id customer)) ;;
      match rental_data with
      | None =>
          print ActiveRentalNotFound ;;
          close ;;
          ret false
      | Some (r, b) =>
          let bike_id := Rentals.bike_id r in
          let rental_start := Rentals.rental_start r in
          let planned_duration := Rentals.planned_duration_hours r in
          let base_cost := Rentals.base_cost r in
          let rental_end_time := now in
          let actual_duration :=
            total_seconds (rental_end_time - rental_start) / Qc_of_Z 3600 in
          let bike := create_bike (bike_id, Bikes.bike_type b, Bikes.model b,
                                   Bikes.hourly_rate b, Bikes.daily_rate b) in
          let additional_charges_new :=
            if bool_decide (Qc_of_Z planned_duration < actual_duration) then
              let overtime_hours := actual_duration - Qc_of_Z planned_duration in
              overtime_hours * hourly_rate bike * Q2Qc 1.5
            else 0 in
          let final_cost := base_cost + additional_charges_new in
          execute (UPDATE_rental_on_return rental_end_time actual_duration
                     additional_charges_new final_cost rental_id) ;;
          execute (UPDATE_bike_availability true bike_id) ;;
          commit ;;
          print (BikeReturned rental_id bike planned_duration actual_duration
                   additional_charges_new final_cost) ;;
          close ;;
          ret true
      end
  end.

Definition generate_business_report : M unit :=
  get_connection ;;
  sum <- execute SELECT_sum_completed ;;
  let total_revenue := or_0 sum in
  total_rentals <- execute SELECT_count_rentals ;;
  active_rentals <- execute SELECT_count_active ;;
  popular_bike <- execute SELECT_popular_bike ;;
  avg <- execute SELECT_avg_duration ;;
  let avg_duration := or_0 avg in
  close ;;
  print (BusinessReport total_revenue total_rentals active_rentals
           (fst <$> popular_bike) avg_duration).

(** ** [DatabaseManager.insert_sample_data]: the inventory of a fresh file *)

Definition sample_bikes : list Bikes.row :=
  [Bikes.mk "Mountain" "Trek X-Caliber" (Q2Qc 15.0) (Q2Qc 80.0) true (Some "2024-01-15"%string);
   Bikes.mk "Road" "Giant Defy" (Q2Qc 12.0) (Q2Qc 65.0) true (Some "2024-01-20"%string);
   Bikes.mk "Hybrid" "Cannondale Quick" (Q2Qc 10.0) (Q2Qc 55.0) true (Some "2024-01-18"%string);
   Bikes.mk "Electric" "Rad Power RadCity" (Q2Qc 25.0) (Q2Qc 120.0) true (Some "2024-01-22"%string);
   Bikes.mk "Mountain" "Specialized Rockhopper" (Q2Qc 14.0) (Q2Qc 75.0) true (Some "2024-01-10"%string);
   Bikes.mk "Road" "Cannondale CAAD" (Q2Qc 13.0) (Q2Qc 70.0) true (Some "2024-01-25"%string)].

(** [executemany] on the empty table numbers the rows 1, 2, ... *)
Definition fresh_database : database :=
  mkDatabase (list_to_map (zip (Z.of_nat <$> seq 1 (length sample_bikes)) sample_bikes))
             ∅ ∅ 0.

(** ** The specification's vocabulary *)

(** The four categories of section 4.1 and the label each is stored under. *)
Inductive category := Mountain | Road | Hybrid | Electric.

Definition label (c : category) : string :=
  match c with
  | Mountain => "Mountain"
  | Road => "Road"
  | Hybrid => "Hybrid"
  | Electric => "Electric"
  end.

Definition threshold (c : category) : Z :=
  match c with Mountain => 4 | Road => 3 | Hybrid => 6 | Electric => 8 end.

(** Factor on the partial-day remainder; 1 is "no discount". *)
Definition remainder_factor (c : category) : Qc :=
  match c with Mountain => Q2Qc 0.8 | Hybrid => Q2Qc 0.9 | Road | Electric => 1 end.

(** Battery surcharge per hour. *)
Definition surcharge (c : category) : Qc :=
  match c with Electric => Q2Qc 2.0 | _ => 0 end.

(** The piecewise formula of section 4.1, in the specification's words:
    [floor] is the floor of the quotient as a rational number. *)
Definition spec_cost (c : category) (hourlyRate dailyRate : Qc) (hours : Z) : Qc :=
  (if decide (hours ≤ threshold c)%Z then
     Qc_of_Z hours * hourlyRate
   else
     Qc_of_Z (Qfloor (inject_Z hours / inject_Z 24)%Q) * dailyRate
     + Qc_of_Z (hours mod 24) * hourlyRate * remainder_factor c)
  + Qc_of_Z hours * surcharge c.

(** The strategy section 4.2 resolves a stored label to. *)
Definition spec_resolve (bike_type : string) : category :=
  if decide (bike_type = "Mountain") then Mountain
  else if decide (bike_type = "Road") then Road
  else if decide (bike_type = "Hybrid") then Hybrid
  else if decide (bike_type = "Electric") then Electric
  else Hybrid.

(** The subclass that implements a category. *)
Definition class_for (c : category) : bike_class :=
  match c with
  | Mountain => MountainBike
  | Road => RoadBike
  | Hybrid => HybridBike
  | Electric => ElectricBike
  end.

(** Mean of a column, zero over no rows. *)
Definition mean (l : list Qc) : Qc :=
  match l with
  | [] => 0
  | _ => sum_list l / Qc_of_Z (Z.of_nat (length l))
  end.

(** What a call of a Python function amounts to. *)
Inductive outcome (A : Type) :=
| Returns (a : A)
| Raises (exception : string).
Arguments Returns {A} a.
Arguments Raises {A} exception.

(** No [calculate_rental_cost] has a [raise], and none calls anything that
    raises on numbers: a call returns. *)
Definition call_calculate_rental_cost (self : Bike Qc) (hours : Z) : outcome Qc :=
  Returns (calculate_rental_cost self hours).

(** An event that changes the stored data. *)
Definition writes (e : event) : bool :=
  match e with
  | Execute s => is_write s
  | Commit => true
  | _ => false
  end.

(** An event that touches the database file at all. *)
Definition touches_store (e : event) : bool :=
  match e with
  | Print _ => false
  | _ => true
  end.

(** Elapsed time in hours, microseconds being the unit of [datetime]. *)
Definition hours_between (start finish : datetime) : Qc :=
  Qc_of_Z (finish - start) / Qc_of_Z 3600000000.

(** Section 4.3: the charge for running over the planned duration. *)
Definition overtime_charge (plannedDuration : Z) (actualDuration hourlyRate : Qc) : Qc :=
  if decide (Qc_of_Z plannedDuration < actualDuration) then
    (actualDuration - Qc_of_Z plannedDuration) * hourlyRate * Q2Qc 1.5
  else 0.

(** The rental records section 4.4 aggregates over. *)
Definition all_rentals (d : database) : list Rentals.row :=
  (map_to_list (rentals d)).*2.

Definition completed (r : Rentals.row) : Prop := Rentals.status r = "COMPLETED"%string.
Definition active (r : Rentals.row) : Prop := Rentals.status r = "ACTIVE"%string.

(** ** States the operations lead to *)

(** After a successful [rent_bike] by customer [c] on the bike row [b]. *)
Definition rented (now : datetime) (bike_id duration_hours : Z) (c : Customer)
    (b : Bikes.row) (s : state) : state :=
  let bike := create_bike (bike_id, Bikes.bike_type b, Bikes.model b,
                           Bikes.hourly_rate b, Bikes.daily_rate b) in
  let total_cost := calculate_rental_cost bike duration_hours in
  let ins := INSERT_rental (customer_id c) bike_id now duration_hours
               total_cost total_cost in
  let d := update_bike_availability false bike_id (run ins (db s)).2 in
  mkState d d (Some c)
    (trace s ++ [Connect; Execute (SELECT_available_bike bike_id); Execute ins;
                 Execute (UPDATE_bike_availability false bike_id); Commit;
                 Print (RentalConfirmed (next_rental_id (db s)) bike
                          duration_hours total_cost now);
                 Close]).

(** After a successful [return_bike] by customer [c] of the rental row [r]
    on the bike row [b]. *)
Definition returned (now : datetime) (rental_id : Z) (c : Customer)
    (r : Rentals.row) (b : Bikes.row) (s : state) : state :=
  let bike := create_bike (Rentals.bike_id r, Bikes.bike_type b, Bikes.model b,
                           Bikes.hourly_rate b, Bikes.daily_rate b) in
  let actual_duration :=
    total_seconds (now - Rentals.rental_start r) / Qc_of_Z 3600 in
  let additional_charges_new :=
    if bool_decide (Qc_of_Z (Rentals.planned_duration_hours r) < actual_duration)
    then (actual_duration - Qc_of_Z (Rentals.planned_duration_hours r))
         * Bikes.hourly_rate b * Q2Qc 1.5
    else 0 in
  let final_cost := Rentals.base_cost r + additional_charges_new in
  let upd := UPDATE_rental_on_return now actual_duration additional_charges_new
               final_cost rental_id in
  let d := update_bike_availability true (Rentals.bike_id r) (run upd (db s)).2 in
  mkState d d (Some c)
    (trace s ++ [Connect; Execute (SELECT_active_rental rental_id (customer_id c));
                 Execute upd;
                 Execute (UPDATE_bike_availability true (Rentals.bike_id r)); Commit;
                 Print (BikeReturned rental_id bike (Rentals.planned_duration_hours r)
                          actual_duration additional_charges_new final_cost);
                 Close]).

(** After a failed lookup: the connection was opened, one SELECT ran, the
    message was printed, the connection was closed. *)
Definition refused {A} (q : statement A) (m : message) (s : state) : state :=
  mkState (db s) (db s) (current_customer s)
    (trace s ++ [Connect; Execute q; Print m; Close]).

(** ** Concrete objects used in the examples *)

Definition trek : Bike Qc :=
  create_bike (1%Z, "Mountain"%string, "Trek X-Caliber"%string, Q2Qc 15.0, Q2Qc 80.0).

Definition trek_binary64 : Bike float :=
  create_bike (1%Z, "Mountain"%string, "Trek X-Caliber"%string, 15.0%float, 80.0%float).

Definition radcity_binary64 : Bike float :=
  create_bike (4%Z, "Electric"%string, "Rad Power RadCity"%string, 25.0%float, 120.0%float).

Definition ann : Customer := mkCustomer 1 "Ann" "ann@example.org" "555-0100".

(** The seeded shop with one registered customer. *)
Definition shop : database :=
  mkDatabase (bikes fresh_database)
    {[ 1%Z := Customers.mk "Ann" "ann@example.org" "555-0100" 0%Z ]}
    ∅ 0.

Definition nobody_logged_in : state := mkState shop shop None [].

Definition ann_logged_in : state := (login_customer "ann@example.org" nobody_logged_in).2.

(** Ann rents bike 1 for 30 hours at time 0 ... *)
Definition ann_riding : state := (rent_bike 0%Z 1 30 ann_logged_in).2.

(** ... and brings it back after 31 hours. *)
Definition hour : Z := 3600000000.
Definition ann_back : state := (return_bike (31 * hour)%Z 1 ann_riding).2.

(** ** Further operations of the program *)

(** The rows of a table in row id order, as a table scan yields them. *)
Definition by_id {V} : relation (Z * V) := λ x y, (x.1 ≤ y.1)%Z.

#[export] Instance by_id_dec {V} : RelDecision (@by_id V) :=
  λ x y, decide (x.1 ≤ y.1)%Z.

Definition rows_by_id {V} (m : gmap Z V) : list (Z * V) :=
  merge_sort by_id (map_to_list m).

(** [get_available_bikes]: [SELECT * FROM bikes WHERE is_available = 1] and
    one object per row.  The method opens and closes a connection of its own
    and prints nothing; it is given as a function of the database. *)
Definition get_available_bikes (d : database) : list (Bike Qc) :=
  (λ kv, create_bike (kv.1, Bikes.bike_type kv.2, Bikes.model kv.2,
                      Bikes.hourly_rate kv.2, Bikes.daily_rate kv.2))
  <$> filter (λ kv, Bikes.is_available kv.2 = true) (rows_by_id (bikes d)).

(** Customers are never deleted, so the id AUTOINCREMENT hands out next is
    one more than the largest present. *)
Definition next_customer_id (d : database) : Z := (max_rowid (customers d) + 1)%Z.

(** [register_customer]: [INSERT INTO customers (name, email, phone)];
    [created_at] takes CURRENT_TIMESTAMP, here [now].  The UNIQUE constraint
    on [email] raises IntegrityError, which the method turns into [False];
    the connection is then closed without a commit.  Given as a function of
    the database: result and committed contents. *)
Definition register_customer (name email phone : string) (now : datetime)
    (d : database) : bool * database :=
  match select_customer_by_email email d with
  | Some _ => (false, d)
  | None =>
      (true,
       mkDatabase (bikes d)
         (<[next_customer_id d := Customers.mk name email phone now]> (customers d))
         (rentals d) (sqlite_sequence_rentals d))
  end.

(** ** Invariants of the stored data *)

(** Every rental's total is its base cost plus its additional charges. *)
Definition costs_add_up (d : database) : Prop :=
  ∀ k r, rentals d !! k = Some r ->
    Rentals.total_cost r = Rentals.base_cost r + Rentals.additional_charges r.

(** A bike is flagged unavailable exactly when an ACTIVE rental refers to it,
    and no bike has two ACTIVE rentals. *)
Definition consistent (d : database) : Prop :=
  (∀ k r, rentals d !! k = Some r -> active r ->
     ∃ b, bikes d !! Rentals.bike_id r = Some b ∧ Bikes.is_available b = false)
  ∧ (∀ k1 k2 r1 r2, rentals d !! k1 = Some r1 -> rentals d !! k2 = Some r2 ->
       active r1 -> active r2 -> Rentals.bike_id r1 = Rentals.bike_id r2 -> k1 = k2)
  ∧ (∀ i b, bikes d !! i = Some b -> Bikes.is_available b = false ->
       ∃ k r, rentals d !! k = Some r ∧ active r ∧ Rentals.bike_id r = i).

(** No two customers share an email. *)
Definition unique_emails (d : database) : Prop :=
  ∀ k1 k2 c1 c2, customers d !! k1 = Some c1 -> customers d !! k2 = Some c2 ->
    Customers.email c1 = Customers.email c2 -> k1 = k2.

(** The report's figures as functions of the database. *)
Definition revenue (d : database) : Qc :=
  sum_list (Rentals.total_cost <$> filter completed (all_rentals d)).

Definition rental_count (d : database) : nat := length (all_rentals d).

Definition active_count (d : database) : nat := length (filter active (all_rentals d)).

(** How often a bike type occurs among the rentals joined with their bikes. *)
Definition rentals_of_type (t : string) (d : database) : Z :=
  Z.of_nat (length (filter (λ x, x = t) (joined_bike_types d))).

(** ** Sequences of calls

    What the menu loop of [main] does to the system, one choice after the
    other: each choice ends in one call of a method. *)
Inductive call :=
| Register (name email phone : string) (now : datetime)
| Login (email : string)
| Rent (now : datetime) (bike_id duration_hours : Z)
| Return (now : datetime) (rental_id : Z)
| Report.

Definition perform (s : state) (c : call) : state :=
  match c with
  | Register name email phone now =>
      let d := (register_customer name email phone now (db s)).2 in
      mkState d d (current_customer s) (trace s)
  | Login email => (login_customer email s).2
  | Rent now bike_id duration_hours => (rent_bike now bike_id duration_hours s).2
  | Return now rental_id => (return_bike now rental_id s).2
  | Report => (generate_business_report s).2
  end.

Definition perform_all (cs : list call) (s : state) : state := foldl perform s cs.

(** The three invariants together. *)
Definition sound (d : database) : Prop :=
  consistent d ∧ costs_add_up d ∧ unique_emails d.

(** * Properties *)

(** ** Pricing *)

Lemma floor_div_24 (hours : Z) :
  Qfloor (inject_Z hours / inject_Z 24)%Q = (hours / 24)%Z.
Proof.
  assert (E : (inject_Z hours / inject_Z 24 == hours # 24)%Q).
  { unfold Qeq; cbn. lia. }
  rewrite E. reflexivity.
Qed.

(** The subclass methods against the formula, class by class. *)
Lemma cost_by_class (c : category) (self : Bike Qc) (hours : Z) :
  class_of self = class_for c ->
  calculate_rental_cost self hours
  = spec_cost c (hourly_rate self) (daily_rate self) hours.
Proof.
  intros Hc. unfold calculate_rental_cost, spec_cost. rewrite Hc.
  rewrite floor_div_24.
  destruct c; cbn [class_for threshold remainder_factor surcharge];
    unfold MountainBike_calculate_rental_cost, RoadBike_calculate_rental_cost,
      HybridBike_calculate_rental_cost, ElectricBike_calculate_rental_cost;
    cbn [of_int add mul lit_0_8 lit_0_9 lit_2_0 Qc_Arith];
    match goal with
    | |- context [(hours <=? ?n)%Z] => destruct (Z.leb_spec hours n)
    end;
    case_decide; try lia; ring.
Qed.

Lemma create_bike_class (id : Z) (ty m : string) (hr dr : Qc) :
  class_of (create_bike (id, ty, m, hr, dr)) = class_for (spec_resolve ty).
Proof.
  unfold create_bike, spec_resolve, bike_classes; cbn [class_of list_to_map foldr].
  repeat case_decide; subst; try reflexivity.
  cbn. rewrite !lookup_insert_ne by congruence. rewrite lookup_empty. reflexivity.
Qed.

(** ** Running the lifecycle operations, path by path *)

Lemma select_available_bike_Some (bike_id : Z) (d : database) (b : Bikes.row) :
  bikes d !! bike_id = Some b -> Bikes.is_available b = true ->
  select_available_bike bike_id d = Some (bike_id, b).
Proof. intros Hb Ha. unfold select_available_bike. by rewrite Hb, Ha. Qed.

Lemma select_available_bike_inv (bike_id : Z) (d : database) (x : Z * Bikes.row) :
  select_available_bike bike_id d = Some x ->
  x.1 = bike_id ∧ bikes d !! bike_id = Some x.2 ∧ Bikes.is_available x.2 = true.
Proof.
  unfold select_available_bike.
  destruct (bikes d !! bike_id) as [b|] eqn:Hb; [|discriminate].
  destruct (Bikes.is_available b) eqn:Ha; [|discriminate].
  intros [= <-]. auto.
Qed.

Lemma select_available_bike_None (bike_id : Z) (d : database) :
  select_available_bike bike_id d = None <->
  bikes d !! bike_id = None
  ∨ ∃ b, bikes d !! bike_id = Some b ∧ Bikes.is_available b = false.
Proof.
  unfold select_available_bike.
  destruct (bikes d !! bike_id) as [b|] eqn:Hb.
  - destruct (Bikes.is_available b) eqn:Ha; split; eauto; try discriminate.
    intros [|(b' & [= <-] & ?)]; congruence.
  - split; auto.
Qed.

(** Unfold a call whose customer check [Hc] and whose SELECT result [Hq]
    are known, and put the trace in normal form. *)
Ltac run_call f tgt Hc Hq :=
  unfold f, bind, get_current_customer; rewrite Hc;
  unfold get_connection, execute, print, commit, close, emit, ret, tgt; cbn;
  rewrite Hq; cbn; by rewrite ?Hc, <- ?app_assoc.

Lemma rent_bike_logged_out (now : datetime) (bike_id duration_hours : Z) (s : state) :
  current_customer s = None ->
  rent_bike now bike_id duration_hours s = (false, emit (Print PleaseLoginFirst) s).
Proof. intros Hc. unfold rent_bike, bind, get_current_customer. by rewrite Hc. Qed.

Lemma rent_bike_bad_duration (now : datetime) (bike_id duration_hours : Z)
    (s : state) (c : Customer) :
  current_customer s = Some c -> (duration_hours ≤ 0)%Z ->
  rent_bike now bike_id duration_hours s
  = (false, emit (Print DurationMustBeGreaterThan0) s).
Proof.
  intros Hc Hd. unfold rent_bike, bind, get_current_customer. rewrite Hc.
  by rewrite (proj2 (Z.leb_le _ _) Hd).
Qed.

Lemma rent_bike_unavailable (now : datetime) (bike_id duration_hours : Z)
    (s : state) (c : Customer) :
  current_customer s = Some c -> (0 < duration_hours)%Z ->
  select_available_bike bike_id (db s) = None ->
  rent_bike now bike_id duration_hours s
  = (false, refused (SELECT_available_bike bike_id) BikeNotAvailable s).
Proof.
  intros Hc Hd%Z.leb_gt Hb. unfold rent_bike at 1. rewrite Hd.
  run_call rent_bike @refused Hc Hb.
Qed.

Lemma rent_bike_available (now : datetime) (bike_id duration_hours : Z)
    (s : state) (c : Customer) (b : Bikes.row) :
  current_customer s = Some c -> (0 < duration_hours)%Z ->
  select_available_bike bike_id (db s) = Some (bike_id, b) ->
  rent_bike now bike_id duration_hours s
  = (true, rented now bike_id duration_hours c b s).
Proof.
  intros Hc Hd%Z.leb_gt Hb. unfold rent_bike at 1. rewrite Hd.
  run_call rent_bike rented Hc Hb.
Qed.

Lemma select_active_rental_Some (rental_id cid : Z) (d : database)
    (r : Rentals.row) (b : Bikes.row) :
  select_active_rental rental_id cid d = Some (r, b) <->
  rentals d !! rental_id = Some r ∧ Rentals.customer_id r = cid
  ∧ Rentals.status r = "ACTIVE"%string ∧ bikes d !! Rentals.bike_id r = Some b.
Proof.
  unfold select_active_rental.
  destruct (rentals d !! rental_id) as [r'|] eqn:Hr.
  - case_bool_decide as Hp.
    + destruct (bikes d !! Rentals.bike_id r') as [b'|] eqn:Hb.
      * split; [intros [= <- <-]; tauto | intros ([= <-] & _ & _ & Hb'); congruence].
      * split; [discriminate | intros ([= <-] & _ & _ & Hb'); congruence].
    + split; [discriminate | intros ([= <-] & ? & ? & _); tauto].
  - split; [discriminate | intros ([=] & _)].
Qed.

Lemma select_active_rental_None (rental_id cid : Z) (d : database) :
  rentals d !! rental_id = None
  ∨ (∃ r, rentals d !! rental_id = Some r
          ∧ (Rentals.customer_id r ≠ cid ∨ Rentals.status r ≠ "ACTIVE"%string)) ->
  select_active_rental rental_id cid d = None.
Proof.
  intros H. destruct (select_active_rental rental_id cid d) as [[r b]|] eqn:E; [|done].
  apply select_active_rental_Some in E as (Hr & Hc & Hs & _).
  destruct H as [H|(r' & H & [Hn|Hn])]; congruence.
Qed.

Lemma return_bike_logged_out (now : datetime) (rental_id : Z) (s : state) :
  current_customer s = None ->
  return_bike now rental_id s = (false, emit (Print PleaseLoginFirst) s).
Proof. intros Hc. unfold return_bike, bind, get_current_customer. by rewrite Hc. Qed.

Lemma return_bike_not_found (now : datetime) (rental_id : Z) (s : state) (c : Customer) :
  current_customer s = Some c ->
  select_active_rental rental_id (customer_id c) (db s) = None ->
  return_bike now rental_id s
  = (false, refused (SELECT_active_rental rental_id (customer_id c))
              ActiveRentalNotFound s).
Proof.
  intros Hc Hr. run_call return_bike @refused Hc Hr.
Qed.

Lemma return_bike_found (now : datetime) (rental_id : Z) (s : state) (c : Customer)
    (r : Rentals.row) (b : Bikes.row) :
  current_customer s = Some c ->
  select_active_rental rental_id (customer_id c) (db s) = Some (r, b) ->
  return_bike now rental_id s = (true, returned now rental_id c r b s).
Proof.
  intros Hc Hr. run_call return_bike returned Hc Hr.
Qed.

(** ** What the statements do to the tables *)

Lemma max_rowid_ge {V} (m : gmap Z V) (k : Z) (v : V) :
  m !! k = Some v -> (k ≤ max_rowid m)%Z.
Proof.
  intros Hk%elem_of_map_to_list. unfold max_rowid.
  induction (map_to_list m) as [|[k' v'] l IH]; cbn.
  - by apply elem_of_nil in Hk.
  - apply elem_of_cons in Hk as [[= <- <-]|Hk]; [lia|].
    specialize (IH Hk). lia.
Qed.

Lemma next_rental_id_fresh (d : database) : rentals d !! next_rental_id d = None.
Proof.
  destruct (rentals d !! next_rental_id d) as [r|] eqn:E; [|done].
  apply max_rowid_ge in E. unfold next_rental_id in E. lia.
Qed.

Lemma rented_rentals now bike_id duration_hours c b s :
  rentals (db (rented now bike_id duration_hours c b s))
  = <[next_rental_id (db s) :=
        let cost := calculate_rental_cost
                      (create_bike (bike_id, Bikes.bike_type b, Bikes.model b,
                                    Bikes.hourly_rate b, Bikes.daily_rate b))
                      duration_hours in
        Rentals.mk (customer_id c) bike_id now None duration_hours None
                   cost 0 cost "ACTIVE"]> (rentals (db s)).
Proof. reflexivity. Qed.

Lemma rented_bikes now bike_id duration_hours c b s :
  bikes (db (rented now bike_id duration_hours c b s))
  = alter (Bikes.set_is_available false) bike_id (bikes (db s)).
Proof. reflexivity. Qed.

Lemma rented_customers now bike_id duration_hours c b s :
  customers (db (rented now bike_id duration_hours c b s)) = customers (db s).
Proof. reflexivity. Qed.

Lemma total_seconds_hours (start finish : datetime) :
  total_seconds (finish - start) / Qc_of_Z 3600 = hours_between start finish.
Proof.
  unfold total_seconds, hours_between.
  replace (Qc_of_Z 3600000000) with (Qc_of_Z 1000000 * Qc_of_Z 3600)
    by (by rewrite <- Z2Qc_inj_mul).
  field. split; intros E; rewrite <- Z2Qc_inj_0 in E; by apply Z2Qc_inj in E.
Qed.

Lemma overtime_charge_code (planned : Z) (actual rate : Qc) :
  (if bool_decide (Qc_of_Z planned < actual)
   then (actual - Qc_of_Z planned) * rate * Q2Qc 1.5 else 0)
  = overtime_charge planned actual rate.
Proof. unfold overtime_charge. by case_bool_decide; case_decide. Qed.

Lemma returned_rentals now rental_id c r b s :
  rentals (db (returned now rental_id c r b s))
  = let actual := hours_between (Rentals.rental_start r) now in
    let extra := overtime_charge (Rentals.planned_duration_hours r) actual
                   (Bikes.hourly_rate b) in
    alter (complete_rental now actual extra (Rentals.base_cost r + extra))
          rental_id (rentals (db s)).
Proof.
  cbn. by rewrite overtime_charge_code, total_seconds_hours.
Qed.

Lemma returned_bikes now rental_id c r b s :
  bikes (db (returned now rental_id c r b s))
  = alter (Bikes.set_is_available true) (Rentals.bike_id r) (bikes (db s)).
Proof. reflexivity. Qed.

Lemma returned_customers now rental_id c r b s :
  customers (db (returned now rental_id c r b s)) = customers (db s).
Proof. reflexivity. Qed.

(** [x or 0] after an aggregate. *)
Lemma or_0_sum (l : list Qc) : or_0 (sql_sum l) = sum_list l.
Proof.
  destruct l as [|x l]; [done|]. unfold sql_sum, or_0.
  by case_bool_decide as E; [rewrite E|].
Qed.

Lemma or_0_avg (l : list Qc) : or_0 (sql_avg l) = mean l.
Proof.
  destruct l as [|x l]; [done|]. unfold sql_avg, or_0, mean.
  by case_bool_decide as E; [rewrite E|].
Qed.

(** ** Claims about pricing and the resolver *)

Lemma spec_resolve_label (c : category) : spec_resolve (label c) = c.
Proof. by destruct c. Qed.

Lemma cost_of_created (id : Z) (ty m : string) (hr dr : Qc) (hours : Z) :
  calculate_rental_cost (create_bike (id, ty, m, hr, dr)) hours
  = spec_cost (spec_resolve ty) hr dr hours.
Proof.
  rewrite (cost_by_class (spec_resolve ty)); [done|]. apply create_bike_class.
Qed.



(** The same two prices in binary64, as CPython computes them. *)
Example mountain_30_hours_binary64 : calculate_rental_cost trek_binary64 30 = 152.0%float.
Proof. vm_compute. reflexivity. Qed.

Example electric_8_hours_binary64 : calculate_rental_cost radcity_binary64 8 = 216.0%float.
Proof. vm_compute. reflexivity. Qed.

Example mountain_23_24_hours_binary64 :
  calculate_rental_cost trek_binary64 23 = 276.0%float
  ∧ calculate_rental_cost trek_binary64 24 = 80.0%float.
Proof. split; vm_compute; reflexivity. Qed.

(** C9.  The cost functions are not monotone in the hours: at the seeded
    rates each category charges less for 24 hours than for 23; for Mountain
    at 15 / 80 the two prices are 23 x 15 x 0.8 = 276 and 1 x 80 = 80. *)
Theorem cost_not_monotone :
  calculate_rental_cost trek 23 = Qc_of_Z 23 * Q2Qc 15 * Q2Qc 0.8
  ∧ calculate_rental_cost trek 23 = Q2Qc 276
  ∧ calculate_rental_cost trek 24 = Qc_of_Z 1 * Q2Qc 80
  ∧ calculate_rental_cost trek 24 = Q2Qc 80
  ∧ ∀ c : category, ∃ (hourlyRate dailyRate : Qc) (h1 h2 : Z),
      (0 < h1 < h2)%Z
      ∧ calculate_rental_cost (create_bike (1%Z, label c, ""%string, hourlyRate, dailyRate)) h2
        < calculate_rental_cost (create_bike (1%Z, label c, ""%string, hourlyRate, dailyRate)) h1.
Proof.
  repeat split; try (by apply Qc_is_canon).
  intros c.
  exists (match c with Mountain => Q2Qc 15 | Road => Q2Qc 12
                  | Hybrid => Q2Qc 10 | Electric => Q2Qc 25 end),
         (match c with Mountain => Q2Qc 80 | Road => Q2Qc 65
                  | Hybrid => Q2Qc 55 | Electric => Q2Qc 120 end),
         23%Z, 24%Z.
  split; [lia|]. by destruct c; vm_compute.
Qed.




(** C6.  [create_bike] keeps the stored label on the object and picks the
    class, hence the pricing, of the category the label resolves to: each of
    the four known labels resolves to its own category, and every other label
    resolves to Hybrid, which is an ordinary result. *)
Theorem resolver_falls_back_to_hybrid (id : Z) (stored m : string)
    (hourlyRate dailyRate : Qc) :
  let bike := create_bike (id, stored, m, hourlyRate, dailyRate) in
  bike_type bike = stored
  ∧ class_of bike = class_for (spec_resolve stored)
  ∧ (∀ hours, calculate_rental_cost bike hours
              = spec_cost (spec_resolve stored) hourlyRate dailyRate hours)
  ∧ (∀ c, spec_resolve (label c) = c)
  ∧ (∀ c1 c2, class_for c1 = class_for c2 -> c1 = c2)
  ∧ ((∀ c, stored ≠ label c) -> spec_resolve stored = Hybrid
                                 ∧ class_of bike = HybridBike).
Proof.
  intros bike. assert (Hu : (∀ c, stored ≠ label c) -> spec_resolve stored = Hybrid).
  { intros Hn. unfold spec_resolve.
    pose proof (Hn Mountain). pose proof (Hn Road). pose proof (Hn Electric).
    by repeat case_decide. }
  split; [done|]. split; [apply create_bike_class|].
  split; [intros hours; apply cost_of_created|].
  split; [apply spec_resolve_label|].
  split; [by intros [] []|].
  intros Hn. split; [by apply Hu|].
  subst bike. by rewrite create_bike_class, Hu.
Qed.

Lemma resolver_falls_back_to_hybrid_witness :
  spec_resolve "Tandem" = Hybrid
  ∧ class_of (create_bike (7%Z, "Tandem"%string, "Twin"%string, Q2Qc 9, Q2Qc 40))
    = HybridBike.
Proof.
  apply (resolver_falls_back_to_hybrid 7 "Tandem" "Twin" (Q2Qc 9) (Q2Qc 40)).
  intros c. destruct c; vm_compute; discriminate.
Defined.

(** ** Claims about the rental lifecycle *)





(** A call that returns [False] leaves the stored data alone and executes
    no writing statement. *)
Lemma rent_bike_failure (now : datetime) (bike_id duration_hours : Z) (s s' : state) :
  rent_bike now bike_id duration_hours s = (false, s') ->
  db s' = db s ∧ current_customer s' = current_customer s
  ∧ ∃ evs, trace s' = trace s ++ evs ∧ Forall (λ e, writes e = false) evs.
Proof.
  intros Hrun. destruct (current_customer s) as [c|] eqn:Hc.
  - destruct (Z_le_gt_dec duration_hours 0) as [Hd|Hd].
    { rewrite (rent_bike_bad_duration _ _ _ _ _ Hc Hd) in Hrun.
      injection Hrun as <-. cbn. eauto 10. }
    destruct (select_available_bike bike_id (db s)) as [[id b]|] eqn:Hsel.
    + apply select_available_bike_inv in Hsel as Hinv. cbn in Hinv.
      destruct Hinv as (-> & _ & _).
      rewrite (rent_bike_available _ _ _ _ _ b Hc) in Hrun by (done || lia).
      discriminate.
    + rewrite (rent_bike_unavailable _ _ _ _ _ Hc) in Hrun by (done || lia).
      injection Hrun as <-. cbn. split; [done|]. split; [done|].
      eexists. split; [done|]. by repeat constructor.
  - rewrite (rent_bike_logged_out _ _ _ _ Hc) in Hrun.
    injection Hrun as <-. cbn. eauto 10.
Qed.

Lemma return_bike_failure (now : datetime) (rental_id : Z) (s s' : state) :
  return_bike now rental_id s = (false, s') ->
  db s' = db s ∧ current_customer s' = current_customer s
  ∧ ∃ evs, trace s' = trace s ++ evs ∧ Forall (λ e, writes e = false) evs.
Proof.
  intros Hrun. destruct (current_customer s) as [c|] eqn:Hc.
  - destruct (select_active_rental rental_id (customer_id c) (db s))
      as [[r b]|] eqn:Hsel.
    + by rewrite (return_bike_found _ _ _ _ _ _ Hc Hsel) in Hrun.
    + rewrite (return_bike_not_found _ _ _ _ Hc Hsel) in Hrun.
      injection Hrun as <-. cbn. split; [done|]. split; [done|].
      eexists. split; [done|]. by repeat constructor.
  - rewrite (return_bike_logged_out _ _ _ Hc) in Hrun.
    injection Hrun as <-. cbn. eauto 10.
Qed.



(** C10.  With nobody logged in, [rent_bike] and [return_bike] print the
    login message and return False; the state is otherwise untouched: no
    connection is opened, no statement is executed, so nothing is read or
    written and no customer id is used. *)
Theorem logged_out_calls_do_nothing (now : datetime)
    (bike_id duration_hours rental_id : Z) (s : state) :
  current_customer s = None ->
  let s' := mkState (db s) (conn s) None (trace s ++ [Print PleaseLoginFirst]) in
  rent_bike now bike_id duration_hours s = (false, s')
  ∧ return_bike now rental_id s = (false, s')
  ∧ Forall (λ e, touches_store e = false) [Print PleaseLoginFirst].
Proof.
  intros Hc s'. split; [|split].
  - rewrite (rent_bike_logged_out _ _ _ _ Hc). unfold emit. by rewrite Hc.
  - rewrite (return_bike_logged_out _ _ _ Hc). unfold emit. by rewrite Hc.
  - by repeat constructor.
Qed.

Lemma logged_out_calls_do_nothing_witness :
  rent_bike 0%Z 1 30 nobody_logged_in
  = (false, mkState shop shop None [Print PleaseLoginFirst])
  ∧ return_bike 0%Z 1 nobody_logged_in
    = (false, mkState shop shop None [Print PleaseLoginFirst]).
Proof.
  destruct (logged_out_calls_do_nothing 0%Z 1 30 1 nobody_logged_in eq_refl)
    as (H1 & H2 & _).
  split; [exact H1 | exact H2].
Defined.

(** ** Claims about the report *)

Lemma no_rentals_no_rows (d : database) : rentals d = ∅ -> all_rentals d = [].
Proof. intros E. unfold all_rentals. by rewrite E, map_to_list_empty. Qed.



(** After Ann's return the report shows 174.50 of revenue and 31 hours. *)
Example report_after_one_rental :
  ∃ revenue average,
    head (rev (trace (generate_business_report ann_back).2))
    = Some (Print (BusinessReport revenue 1 0 (Some "Mountain"%string) average))
    ∧ revenue = Q2Qc 174.5 ∧ average = Q2Qc 31.
Proof.
  eexists _, _. split; [vm_compute; reflexivity|].
  split; by apply Qc_is_canon.
Qed.

(** ** One call after the other *)


(** * Further properties *)

(** ** Every way a lifecycle call can end *)

Lemma rent_bike_cases (now : datetime) (bike_id duration_hours : Z)
    (s s' : state) (ok : bool) :
  rent_bike now bike_id duration_hours s = (ok, s') ->
  (ok = false ∧ db s' = db s ∧ current_customer s' = current_customer s)
  ∨ (ok = true ∧ ∃ c b,
       current_customer s = Some c ∧ (0 < duration_hours)%Z
       ∧ bikes (db s) !! bike_id = Some b ∧ Bikes.is_available b = true
       ∧ s' = rented now bike_id duration_hours c b s).
Proof.
  intros Hrun. destruct ok.
  - right. split; [done|].
    destruct (current_customer s) as [c|] eqn:Hc.
    2: { by rewrite (rent_bike_logged_out _ _ _ _ Hc) in Hrun. }
    destruct (Z_le_gt_dec duration_hours 0) as [Hd|Hd].
    { by rewrite (rent_bike_bad_duration _ _ _ _ _ Hc Hd) in Hrun. }
    destruct (select_available_bike bike_id (db s)) as [[id b]|] eqn:Hsel.
    2: { rewrite (rent_bike_unavailable _ _ _ _ _ Hc) in Hrun by (done || lia).
         discriminate. }
    apply select_available_bike_inv in Hsel as Hinv. cbn in Hinv.
    destruct Hinv as (-> & Hb & Ha).
    rewrite (rent_bike_available _ _ _ _ _ b Hc) in Hrun by (done || lia).
    injection Hrun as <-. exists c, b. repeat split; (done || lia).
  - left. by destruct (rent_bike_failure _ _ _ _ _ Hrun) as (? & ? & _).
Qed.

Lemma return_bike_cases (now : datetime) (rental_id : Z) (s s' : state) (ok : bool) :
  return_bike now rental_id s = (ok, s') ->
  (ok = false ∧ db s' = db s ∧ current_customer s' = current_customer s)
  ∨ (ok = true ∧ ∃ c r b,
       current_customer s = Some c
       ∧ rentals (db s) !! rental_id = Some r
       ∧ Rentals.customer_id r = customer_id c ∧ active r
       ∧ bikes (db s) !! Rentals.bike_id r = Some b
       ∧ s' = returned now rental_id c r b s).
Proof.
  intros Hrun. destruct ok.
  - right. split; [done|].
    destruct (current_customer s) as [c|] eqn:Hc.
    2: { by rewrite (return_bike_logged_out _ _ _ Hc) in Hrun. }
    destruct (select_active_rental rental_id (customer_id c) (db s))
      as [[r b]|] eqn:Hsel.
    2: { by rewrite (return_bike_not_found _ _ _ _ Hc Hsel) in Hrun. }
    rewrite (return_bike_found _ _ _ _ _ _ Hc Hsel) in Hrun.
    injection Hrun as <-.
    apply select_active_rental_Some in Hsel as (Hr & Ho & Ha & Hb).
    by exists c, r, b.
  - left. by destruct (return_bike_failure _ _ _ _ Hrun) as (? & ? & _).
Qed.

(** The row [return_bike] writes is COMPLETED, hence not ACTIVE. *)
Lemma complete_rental_not_active t a x y r : ¬ active (complete_rental t a x y r).
Proof. unfold active; cbn. discriminate. Qed.

Lemma set_is_available_twice b :
  Bikes.is_available b = true ->
  Bikes.set_is_available true (Bikes.set_is_available false b) = b.
Proof. destruct b; cbn. by intros ->. Qed.

(** ** Invariants kept by [rent_bike] and [return_bike] *)

Lemma rented_costs_add_up now bike_id h c b s :
  costs_add_up (db s) -> costs_add_up (db (rented now bike_id h c b s)).
Proof.
  intros Hinv k r. rewrite rented_rentals. cbn zeta.
  destruct (decide (k = next_rental_id (db s))) as [->|Hk].
  - rewrite lookup_insert_eq. intros [= <-]. cbn. ring.
  - rewrite lookup_insert_ne by done. apply Hinv.
Qed.

Lemma returned_costs_add_up now rental_id c r b s :
  rentals (db s) !! rental_id = Some r ->
  costs_add_up (db s) -> costs_add_up (db (returned now rental_id c r b s)).
Proof.
  intros Hr Hinv k r'. rewrite returned_rentals. cbn zeta.
  destruct (decide (k = rental_id)) as [->|Hk].
  - rewrite lookup_alter_eq, Hr. by intros [= <-].
  - rewrite lookup_alter_ne by done. apply Hinv.
Qed.

(** X1.  Whatever the arguments and the outcome, [rent_bike] and
    [return_bike] keep "total cost = base cost + additional charges" true of
    every stored rental. *)
Theorem lifecycle_keeps_costs_adding_up (now : datetime)
    (bike_id duration_hours rental_id : Z) (s s' : state) (ok : bool) :
  costs_add_up (db s) ->
  rent_bike now bike_id duration_hours s = (ok, s')
  ∨ return_bike now rental_id s = (ok, s') ->
  costs_add_up (db s').
Proof.
  intros Hinv [Hrun|Hrun].
  - apply rent_bike_cases in Hrun as [(_ & -> & _)|(_ & c & r & _ & _ & _ & _ & ->)];
      [done | by apply rented_costs_add_up].
  - apply return_bike_cases in Hrun
      as [(_ & -> & _)|(_ & c & r & b' & _ & Hr & _ & _ & _ & ->)];
      [done | by apply returned_costs_add_up].
Qed.

Lemma shop_costs_add_up : costs_add_up shop.
Proof. intros k r. cbn. by rewrite lookup_empty. Qed.

Lemma lifecycle_keeps_costs_adding_up_witness : costs_add_up (db ann_back).
Proof.
  apply (lifecycle_keeps_costs_adding_up (31 * hour)%Z 1 30 1 ann_riding ann_back true).
  - apply (lifecycle_keeps_costs_adding_up 0%Z 1 30 1 ann_logged_in ann_riding true).
    + apply shop_costs_add_up.
    + left. vm_compute. reflexivity.
  - right. vm_compute. reflexivity.
Defined.

Lemma rented_consistent now bike_id h c b s :
  bikes (db s) !! bike_id = Some b -> Bikes.is_available b = true ->
  consistent (db s) -> consistent (db (rented now bike_id h c b s)).
Proof.
  intros Hb Ha (HA & HB & HC).
  pose proof (next_rental_id_fresh (db s)) as Hfresh.
  assert (Hnone : ∀ k r, rentals (db s) !! k = Some r -> active r ->
                         Rentals.bike_id r ≠ bike_id).
  { intros k r Hk Hact E. destruct (HA k r Hk Hact) as (b0 & Hb0 & Ha0).
    rewrite E in Hb0. congruence. }
  unfold consistent. rewrite rented_rentals, rented_bikes. cbn zeta.
  set (nid := next_rental_id (db s)) in *.
  split; [|split].
  - intros k r Hk Hact. destruct (decide (k = nid)) as [->|Hne].
    + rewrite lookup_insert_eq in Hk. injection Hk as <-. cbn.
      rewrite lookup_alter_eq, Hb. by eexists.
    + rewrite lookup_insert_ne in Hk by done.
      destruct (HA k r Hk Hact) as (b0 & Hb0 & Ha0).
      rewrite lookup_alter_ne by (by apply not_eq_sym, (Hnone k)). eauto.
  - intros k1 k2 r1 r2 H1 H2 A1 A2 Hsame.
    destruct (decide (k1 = nid)) as [->|N1], (decide (k2 = nid)) as [->|N2]; [done|..].
    + rewrite lookup_insert_eq in H1. injection H1 as <-. cbn in Hsame.
      rewrite lookup_insert_ne in H2 by done. by destruct (Hnone k2 r2).
    + rewrite lookup_insert_eq in H2. injection H2 as <-. cbn in Hsame.
      rewrite lookup_insert_ne in H1 by done. by destruct (Hnone k1 r1).
    + rewrite lookup_insert_ne in H1, H2 by done. eauto.
  - intros i b' Hi Hu. destruct (decide (i = bike_id)) as [->|Hne].
    + exists nid. eexists. rewrite lookup_insert_eq. by repeat split.
    + rewrite lookup_alter_ne in Hi by done.
      destruct (HC i b' Hi Hu) as (k & r & Hk & Hact & Hbid).
      exists k, r. rewrite lookup_insert_ne; [done|]. intros <-. congruence.
Qed.

Lemma returned_consistent now rental_id c r b s :
  rentals (db s) !! rental_id = Some r -> active r ->
  consistent (db s) -> consistent (db (returned now rental_id c r b s)).
Proof.
  intros Hr Hact (HA & HB & HC).
  unfold consistent. rewrite returned_rentals, returned_bikes. cbn zeta.
  assert (Hold : ∀ k r', alter
      (complete_rental now (hours_between (Rentals.rental_start r) now)
         (overtime_charge (Rentals.planned_duration_hours r)
            (hours_between (Rentals.rental_start r) now) (Bikes.hourly_rate b))
         (Rentals.base_cost r
          + overtime_charge (Rentals.planned_duration_hours r)
              (hours_between (Rentals.rental_start r) now) (Bikes.hourly_rate b)))
      rental_id (rentals (db s)) !! k = Some r' -> active r' ->
      k ≠ rental_id ∧ rentals (db s) !! k = Some r').
  { intros k r' Hk Hact'. destruct (decide (k = rental_id)) as [->|Hne].
    - rewrite lookup_alter_eq, Hr in Hk. injection Hk as <-.
      by destruct (complete_rental_not_active _ _ _ _ _ Hact').
    - by rewrite lookup_alter_ne in Hk. }
  split; [|split].
  - intros k r' Hk Hact'. destruct (Hold k r' Hk Hact') as [Hne Hk'].
    destruct (HA k r' Hk' Hact') as (b0 & Hb0 & Ha0).
    exists b0. split; [|done]. rewrite lookup_alter_ne; [done|].
    intros Hsame. apply Hne. by apply (HB k rental_id r' r).
  - intros k1 k2 r1 r2 H1 H2 A1 A2.
    destruct (Hold k1 r1 H1 A1) as [_ H1'], (Hold k2 r2 H2 A2) as [_ H2']. eauto.
  - intros i b' Hi Hu. destruct (decide (i = Rentals.bike_id r)) as [->|Hne].
    + rewrite lookup_alter_eq in Hi.
      destruct (bikes (db s) !! Rentals.bike_id r) as [b0|]; [|done].
      injection Hi as <-. by destruct b0.
    + rewrite lookup_alter_ne in Hi by done.
      destruct (HC i b' Hi Hu) as (k & r' & Hk & Hact' & Hbid).
      exists k, r'. rewrite lookup_alter_ne; [done|]. intros ->. congruence.
Qed.

(** X2.  Whatever the arguments and the outcome, [rent_bike] and
    [return_bike] keep the stored data consistent: a bike is flagged
    unavailable exactly when an ACTIVE rental refers to it, and no bike has
    two ACTIVE rentals. *)
Theorem lifecycle_keeps_consistency (now : datetime)
    (bike_id duration_hours rental_id : Z) (s s' : state) (ok : bool) :
  consistent (db s) ->
  rent_bike now bike_id duration_hours s = (ok, s')
  ∨ return_bike now rental_id s = (ok, s') ->
  consistent (db s').
Proof.
  intros Hinv [Hrun|Hrun].
  - apply rent_bike_cases in Hrun as [(_ & -> & _)|(_ & c & b & _ & _ & Hb & Ha & ->)];
      [done | by apply rented_consistent].
  - apply return_bike_cases in Hrun
      as [(_ & -> & _)|(_ & c & r & b & _ & Hr & _ & Hact & _ & ->)];
      [done | by apply returned_consistent].
Qed.

(** The seeded inventory, every bike available and no rental, is consistent. *)
Lemma shop_consistent : consistent shop.
Proof.
  split; [|split].
  - intros k r Hk. cbn in Hk. by rewrite lookup_empty in Hk.
  - intros k1 k2 r1 r2 Hk. cbn in Hk. by rewrite lookup_empty in Hk.
  - intros i b Hi Hu. exfalso.
    apply elem_of_list_to_map_2 in Hi. cbn in Hi.

    repeat (apply elem_of_cons in Hi as [[= -> ->]|Hi]; [done|]).
    by apply elem_of_nil in Hi.
Qed.

Lemma lifecycle_keeps_consistency_witness : consistent (db ann_back).
Proof.
  apply (lifecycle_keeps_consistency (31 * hour)%Z 1 30 1 ann_riding ann_back true).
  - apply (lifecycle_keeps_consistency 0%Z 1 30 1 ann_logged_in ann_riding true).
    + apply shop_consistent.
    + left. vm_compute. reflexivity.
  - right. vm_compute. reflexivity.
Defined.

(** ** The rental history *)

(** X3.  No call of [rent_bike] or [return_bike] deletes a rental or changes
    who rented which bike, when, for how long and at what quote; and a rental
    that is not ACTIVE (a COMPLETED one) is never changed at all. *)
Theorem rental_history_is_kept (now : datetime)
    (bike_id duration_hours rental_id : Z) (s s' : state) (ok : bool)
    (k : Z) (r : Rentals.row) :
  rent_bike now bike_id duration_hours s = (ok, s')
  ∨ return_bike now rental_id s = (ok, s') ->
  rentals (db s) !! k = Some r ->
  ∃ r', rentals (db s') !! k = Some r'
        ∧ Rentals.customer_id r' = Rentals.customer_id r
        ∧ Rentals.bike_id r' = Rentals.bike_id r
        ∧ Rentals.rental_start r' = Rentals.rental_start r
        ∧ Rentals.planned_duration_hours r' = Rentals.planned_duration_hours r
        ∧ Rentals.base_cost r' = Rentals.base_cost r
        ∧ (¬ active r -> r' = r).
Proof.
  intros [Hrun|Hrun] Hk.
  - apply rent_bike_cases in Hrun as [(_ & -> & _)|(_ & c & b & _ & _ & _ & _ & ->)].
    { by exists r. }
    exists r. rewrite rented_rentals. cbn zeta.
    rewrite lookup_insert_ne; [done|].
    intros <-. by rewrite next_rental_id_fresh in Hk.
  - apply return_bike_cases in Hrun
      as [(_ & -> & _)|(_ & c & r0 & b & _ & Hr & _ & Hact & _ & ->)].
    { by exists r. }
    rewrite returned_rentals. cbn zeta.
    destruct (decide (k = rental_id)) as [->|Hne].
    + rewrite lookup_alter_eq, Hk. eexists. split; [done|].
      replace r0 with r in * by congruence. by repeat split.
    + exists r. by rewrite lookup_alter_ne.
Qed.

(** The rental Ann completed stays as it is when Ann rents again. *)
Lemma rental_history_is_kept_witness :
  ∃ r, rentals (db ann_back) !! 1%Z = Some r
       ∧ rentals (db (rent_bike (40 * hour)%Z 2 3 ann_back).2) !! 1%Z = Some r.
Proof.
  destruct (rentals (db ann_back) !! 1%Z) as [r|] eqn:Hr; [|by vm_compute in Hr].
  exists r. split; [done|].
  destruct (rental_history_is_kept (40 * hour)%Z 2 3 0 ann_back
              (rent_bike (40 * hour)%Z 2 3 ann_back).2
              (rent_bike (40 * hour)%Z 2 3 ann_back).1 1 r)
    as (r' & Hr' & _ & _ & _ & _ & _ & Hsame).
  - left. by destruct (rent_bike (40 * hour)%Z 2 3 ann_back).
  - exact Hr.
  - rewrite Hr'. f_equal. apply Hsame.
    vm_compute in Hr. injection Hr as <-. unfold active; cbn. discriminate.
Defined.

(** ** Rental numbers *)

Lemma max_rowid_le {V} (m : gmap Z V) (x : Z) :
  (0 ≤ x)%Z -> (∀ k v, m !! k = Some v -> (k ≤ x)%Z) -> (max_rowid m ≤ x)%Z.
Proof.
  intros Hx Hall. unfold max_rowid.
  assert (H : ∀ kv, kv ∈ map_to_list m -> (kv.1 ≤ x)%Z).
  { intros [k v] Hkv%elem_of_map_to_list. by apply (Hall k v). }
  induction (map_to_list m) as [|kv l IH]; cbn; [done|].
  pose proof (H kv ltac:(left)). 
  assert (foldr (λ kv acc, Z.max kv.1 acc) 0%Z l ≤ x)%Z
    by (apply IH; intros; apply H; by right).
  lia.
Qed.

Lemma max_rowid_nonneg {V} (m : gmap Z V) : (0 ≤ max_rowid m)%Z.
Proof. unfold max_rowid. induction (map_to_list m); cbn; lia. Qed.

Lemma max_rowid_same_keys {V} (m1 m2 : gmap Z V) :
  (∀ k, is_Some (m1 !! k) <-> is_Some (m2 !! k)) -> max_rowid m1 = max_rowid m2.
Proof.
  intros Hdom. apply Z.le_antisymm; apply max_rowid_le;
    try apply max_rowid_nonneg; intros k v Hk.
  - destruct (proj1 (Hdom k) (mk_is_Some _ _ Hk)) as [v' Hv'].
    by apply (max_rowid_ge _ _ v').
  - destruct (proj2 (Hdom k) (mk_is_Some _ _ Hk)) as [v' Hv'].
    by apply (max_rowid_ge _ _ v').
Qed.

Lemma next_rental_id_rented now bike_id h c b s :
  next_rental_id (db (rented now bike_id h c b s)) = (next_rental_id (db s) + 1)%Z.
Proof.
  unfold next_rental_id at 1. rewrite rented_rentals. cbn.
  set (nid := next_rental_id (db s)).
  assert (0 < nid)%Z.
  { unfold nid, next_rental_id. pose proof (max_rowid_nonneg (rentals (db s))). lia. }
  match goal with |- (Z.max nid ?x + 1)%Z = _ => assert (x ≤ nid)%Z end; [|lia].
  apply max_rowid_le; [lia|]. intros k v Hk.
  destruct (decide (k = nid)) as [->|Hne]; [lia|].
  rewrite lookup_insert_ne in Hk by done.
  apply max_rowid_ge in Hk. unfold nid, next_rental_id. lia.
Qed.

Lemma next_rental_id_returned now rental_id c r b s :
  next_rental_id (db (returned now rental_id c r b s)) = next_rental_id (db s).
Proof.
  unfold next_rental_id. rewrite returned_rentals. cbn.
  f_equal. f_equal. apply max_rowid_same_keys. intros k.
  rewrite lookup_alter_is_Some. done.
Qed.



(** ** Rent, then return *)

Lemma Qc_mul_nonneg (x y : Qc) : 0 ≤ x -> 0 ≤ y -> 0 ≤ x * y.
Proof.
  intros Hx Hy. replace 0 with (0 * y) by ring. apply Qcmult_le_compat_r; assumption.
Qed.

Lemma Qc_add_nonneg (x y : Qc) : 0 ≤ x -> 0 ≤ y -> 0 ≤ x + y.
Proof.
  intros Hx Hy. replace 0 with (0 + 0) by ring. apply Qcplus_le_compat; assumption.
Qed.

Lemma Qc_of_Z_nonneg (z : Z) : (0 ≤ z)%Z -> 0 ≤ Qc_of_Z z.
Proof. intros Hz. rewrite <- Z2Qc_inj_0. exact (proj1 (Z2Qc_inj_le 0 z) Hz). Qed.

Lemma hours_between_le (start finish : datetime) (h : Z) :
  (finish - start ≤ h * hour)%Z -> hours_between start finish ≤ Qc_of_Z h.
Proof.
  intros Hle. unfold hours_between, Qcdiv.
  assert (Hpos : 0 ≤ / Qc_of_Z 3600000000) by done.
  apply (proj1 (Z2Qc_inj_le _ _)) in Hle. rewrite Z2Qc_inj_mul in Hle.
  apply (Qcmult_le_compat_r _ _ _ Hle) in Hpos.
  replace (Qc_of_Z h * Qc_of_Z hour * / Qc_of_Z 3600000000) with (Qc_of_Z h)
    in Hpos; [exact Hpos|].
  unfold hour. field. intros E. rewrite <- Z2Qc_inj_0 in E. by apply Z2Qc_inj in E.
Qed.

Lemma overtime_charge_nonneg (planned : Z) (actual rate : Qc) :
  0 ≤ rate -> 0 ≤ overtime_charge planned actual rate.
Proof.
  intros Hr. unfold overtime_charge. case_decide as Hlate; [|done].
  apply Qc_mul_nonneg; [apply Qc_mul_nonneg|done]; [|done].
  apply Qclt_le_weak in Hlate. by apply Qcle_minus_iff in Hlate.
Qed.

Lemma rented_select_active now bike_id h c b s :
  bikes (db s) !! bike_id = Some b ->
  select_active_rental (next_rental_id (db s)) (customer_id c)
    (db (rented now bike_id h c b s))
  = Some (Rentals.mk (customer_id c) bike_id now None h None
            (calculate_rental_cost
               (create_bike (bike_id, Bikes.bike_type b, Bikes.model b,
                             Bikes.hourly_rate b, Bikes.daily_rate b)) h)
            0
            (calculate_rental_cost
               (create_bike (bike_id, Bikes.bike_type b, Bikes.model b,
                             Bikes.hourly_rate b, Bikes.daily_rate b)) h)
            "ACTIVE",
          Bikes.set_is_available false b).
Proof.
  intros Hb. apply select_active_rental_Some.
  rewrite rented_rentals, rented_bikes. cbn zeta.
  rewrite lookup_insert_eq. cbn. by rewrite lookup_alter_eq, Hb.
Qed.



(** X6.  A rental can be returned once: after a successful [return_bike], a
    second [return_bike] of the same rental, at any time, is refused as "not
    found" and changes nothing. *)
Theorem second_return_bike_is_refused (t1 t2 : datetime) (rental_id : Z)
    (s s1 : state) :
  return_bike t1 rental_id s = (true, s1) ->
  ∃ c, current_customer s1 = Some c
       ∧ return_bike t2 rental_id s1
         = (false, refused (SELECT_active_rental rental_id (customer_id c))
                     ActiveRentalNotFound s1)
       ∧ db (refused (SELECT_active_rental rental_id (customer_id c))
               ActiveRentalNotFound s1) = db s1.
Proof.
  intros Hrun. apply return_bike_cases in Hrun
    as [([=] & _)|(_ & c & r & b & Hc & Hr & _ & _ & _ & ->)].
  exists c. split; [done|]. split; [|done].
  apply return_bike_not_found; [done|].
  apply select_active_rental_None. right.
  eexists. rewrite returned_rentals. cbn zeta. rewrite lookup_alter_eq, Hr.
  split; [done|]. right. cbn. discriminate.
Qed.

Lemma second_return_bike_is_refused_witness :
  return_bike (32 * hour)%Z 1 ann_back
  = (false, refused (SELECT_active_rental 1 (customer_id ann))
              ActiveRentalNotFound ann_back).
Proof.
  destruct (second_return_bike_is_refused (31 * hour)%Z (32 * hour)%Z 1
              ann_riding ann_back ltac:(vm_compute; reflexivity))
    as (c & Hc & Hrun & _).
  vm_compute in Hc. injection Hc as <-. exact Hrun.
Defined.


(** X8.  When the bike's hourly rate is not negative, [return_bike] never
    lowers the bill: the additional charge it stores is not negative and the
    total is at least the quote. *)
Theorem return_bike_never_lowers_the_bill (now : datetime) (rental_id : Z)
    (s s' : state) (r : Rentals.row) (b : Bikes.row) :
  return_bike now rental_id s = (true, s') ->
  rentals (db s) !! rental_id = Some r ->
  bikes (db s) !! Rentals.bike_id r = Some b ->
  0 ≤ Bikes.hourly_rate b ->
  ∃ r', rentals (db s') !! rental_id = Some r'
        ∧ 0 ≤ Rentals.additional_charges r'
        ∧ Rentals.base_cost r ≤ Rentals.total_cost r'.
Proof.
  intros Hrun Hr Hb Hrate. apply return_bike_cases in Hrun
    as [([=] & _)|(_ & c & r0 & b0 & _ & Hr0 & _ & _ & Hb0 & ->)].
  assert (r0 = r) as -> by congruence. assert (b0 = b) as -> by congruence.
  rewrite returned_rentals. cbn zeta. rewrite lookup_alter_eq, Hr.
  eexists. split; [done|]. cbn.
  pose proof (overtime_charge_nonneg (Rentals.planned_duration_hours r)
                (hours_between (Rentals.rental_start r) now) _ Hrate) as Hx.
  split; [done|].
  apply Qcle_minus_iff.
  replace (Rentals.base_cost r
           + overtime_charge (Rentals.planned_duration_hours r)
               (hours_between (Rentals.rental_start r) now) (Bikes.hourly_rate b)
           + - Rentals.base_cost r)
    with (overtime_charge (Rentals.planned_duration_hours r)
            (hours_between (Rentals.rental_start r) now) (Bikes.hourly_rate b))
    by ring.
  done.
Qed.

Lemma return_bike_never_lowers_the_bill_witness :
  ∃ r', rentals (db ann_back) !! 1%Z = Some r'
        ∧ 0 ≤ Rentals.additional_charges r'
        ∧ Q2Qc 152 ≤ Rentals.total_cost r'.
Proof.
  apply (return_bike_never_lowers_the_bill (31 * hour)%Z 1 ann_riding ann_back
           (Rentals.mk 1 1 0%Z None 30 None (Q2Qc 152) 0 (Q2Qc 152) "ACTIVE")
           (Bikes.mk "Mountain" "Trek X-Caliber" (Q2Qc 15.0) (Q2Qc 80.0) false
                     (Some "2024-01-15"%string)));
    vm_compute; (reflexivity || discriminate).
Defined.

(** ** Customers: registration and login *)

Lemma select_customer_by_email_Some (email : string) (d : database)
    (k : Z) (c : Customers.row) :
  select_customer_by_email email d = Some (k, c) ->
  customers d !! k = Some c ∧ Customers.email c = email.
Proof.
  unfold select_customer_by_email. intros H.
  assert (Hin : (k, c) ∈ filter (λ kv, Customers.email kv.2 = email)
                         (map_to_list (customers d))).
  { destruct (filter _ _) as [|x l]; [done|]. injection H as ->. by left. }
  apply list_elem_of_filter in Hin as [He Hin]. by apply elem_of_map_to_list in Hin.
Qed.

Lemma select_customer_by_email_None (email : string) (d : database) :
  select_customer_by_email email d = None <->
  ∀ k c, customers d !! k = Some c -> Customers.email c ≠ email.
Proof.
  unfold select_customer_by_email. split.
  - intros H k c Hk He.
    assert (Hin : (k, c) ∈ filter (λ kv, Customers.email kv.2 = email)
                           (map_to_list (customers d))).
    { apply list_elem_of_filter. split; [done|]. by apply elem_of_map_to_list. }
    destruct (filter _ _); [by apply elem_of_nil in Hin | done].
  - intros Hnone.
    destruct (filter _ _) as [|[k c] l] eqn:E; [done|]. exfalso.
    assert (Hin : (k, c) ∈ filter (λ kv, Customers.email kv.2 = email)
                           (map_to_list (customers d))) by (rewrite E; by left).
    apply list_elem_of_filter in Hin as [He Hin].
    apply elem_of_map_to_list in Hin. by apply (Hnone k c).
Qed.

Lemma login_customer_found (email : string) (s : state) (k : Z) (c : Customers.row) :
  select_customer_by_email email (db s) = Some (k, c) ->
  login_customer email s
  = (true,
     mkState (db s) (db s)
       (Some (mkCustomer k (Customers.name c) (Customers.email c) (Customers.phone c)))
       (trace s ++ [Connect; Execute (SELECT_customer_by_email email);
                    Print (WelcomeBack (Customers.name c)); Close])).
Proof.
  intros Hsel. unfold login_customer, bind, get_connection, execute,
    set_current_customer, print, close, emit, ret; cbn.
  rewrite Hsel; cbn. by rewrite <- ?app_assoc.
Qed.

Lemma login_customer_missing (email : string) (s : state) :
  select_customer_by_email email (db s) = None ->
  login_customer email s
  = (false, refused (SELECT_customer_by_email email) CustomerNotFound s).
Proof.
  intros Hsel. unfold login_customer, bind, get_connection, execute,
    print, close, emit, ret, refused; cbn.
  rewrite Hsel; cbn. by rewrite <- ?app_assoc.
Qed.

(** X9.  [login_customer] never changes the stored data.  It succeeds
    exactly when some customer has the given email, and then the current
    customer is a stored customer with that email, under its row id.  When it
    fails, whoever was logged in before stays logged in. *)
Theorem login_customer_outcome (email : string) (s : state) :
  let ok := (login_customer email s).1 in
  let s' := (login_customer email s).2 in
  db s' = db s
  ∧ (ok = true <-> ∃ k c, customers (db s) !! k = Some c ∧ Customers.email c = email)
  ∧ (ok = true ->
     ∃ k c, customers (db s) !! k = Some c ∧ Customers.email c = email
            ∧ current_customer s'
              = Some (mkCustomer k (Customers.name c) email (Customers.phone c)))
  ∧ (ok = false -> current_customer s' = current_customer s).
Proof.
  destruct (select_customer_by_email email (db s)) as [[k c]|] eqn:Hsel.
  - rewrite (login_customer_found _ _ _ _ Hsel). cbn.
    apply select_customer_by_email_Some in Hsel as [Hk He].
    split; [done|]. split; [split; eauto|]. split; [|done].
    intros _. exists k, c. by rewrite He.
  - rewrite (login_customer_missing _ _ Hsel). cbn.
    split; [done|]. split; [|done]. split; [done|].
    intros (k & c & Hk & He).
    by destruct (proj1 (select_customer_by_email_None _ _) Hsel k c Hk).
Qed.

(** Ann stays logged in when somebody mistypes an email. *)
Lemma login_customer_outcome_witness :
  (login_customer "bob@example.org" ann_riding).1 = false
  ∧ current_customer (login_customer "bob@example.org" ann_riding).2 = Some ann.
Proof.
  destruct (login_customer_outcome "bob@example.org" ann_riding) as (_ & _ & _ & Hkeep).
  assert (Hfail : (login_customer "bob@example.org" ann_riding).1 = false)
    by (vm_compute; reflexivity).
  split; [exact Hfail|]. rewrite (Hkeep Hfail). vm_compute. reflexivity.
Defined.

Lemma next_customer_id_fresh (d : database) : customers d !! next_customer_id d = None.
Proof.
  destruct (customers d !! next_customer_id d) as [c|] eqn:E; [|done].
  apply max_rowid_ge in E. unfold next_customer_id in E. lia.
Qed.

Lemma register_customer_new name email phone now d :
  (∀ k c, customers d !! k = Some c -> Customers.email c ≠ email) ->
  register_customer name email phone now d
  = (true,
     mkDatabase (bikes d)
       (<[next_customer_id d := Customers.mk name email phone now]> (customers d))
       (rentals d) (sqlite_sequence_rentals d)).
Proof.
  intros Hfree%select_customer_by_email_None. unfold register_customer.
  by rewrite Hfree.
Qed.

Lemma register_customer_taken name email phone now d :
  (∃ k c, customers d !! k = Some c ∧ Customers.email c = email) ->
  register_customer name email phone now d = (false, d).
Proof.
  intros (k & c & Hk & He). unfold register_customer.
  destruct (select_customer_by_email email d) eqn:Hsel; [done|].
  by destruct (proj1 (select_customer_by_email_None _ _) Hsel k c Hk).
Qed.

(** X10.  Registering with an email nobody has succeeds, adds one customer
    under a row id that was not in use, and leaves every other customer, the
    bikes and the rentals as they were; a login with that email then succeeds
    and makes the customer just registered the current one. *)
Theorem register_then_login (name email phone : string) (now : datetime)
    (d : database) (s1 : state) :
  (∀ k c, customers d !! k = Some c -> Customers.email c ≠ email) ->
  db s1 = (register_customer name email phone now d).2 ->
  (register_customer name email phone now d).1 = true
  ∧ customers d !! next_customer_id d = None
  ∧ customers (db s1) !! next_customer_id d
    = Some (Customers.mk name email phone now)
  ∧ (∀ k, k ≠ next_customer_id d -> customers (db s1) !! k = customers d !! k)
  ∧ bikes (db s1) = bikes d ∧ rentals (db s1) = rentals d
  ∧ (login_customer email s1).1 = true
  ∧ current_customer (login_customer email s1).2
    = Some (mkCustomer (next_customer_id d) name email phone).
Proof.
  intros Hfree Hdb. rewrite (register_customer_new _ _ _ _ _ Hfree) in *.
  cbn [fst snd] in *.
  assert (Hcust : customers (db s1)
                  = <[next_customer_id d := Customers.mk name email phone now]>
                      (customers d)) by (by rewrite Hdb).
  split; [done|]. split; [apply next_customer_id_fresh|].
  split; [rewrite Hcust; apply lookup_insert_eq|].
  split; [by intros k Hk; rewrite Hcust, lookup_insert_ne|].
  do 2 (split; [by rewrite Hdb|]).
  destruct (select_customer_by_email email (db s1)) as [[k c]|] eqn:Hsel.
  - rewrite (login_customer_found _ _ _ _ Hsel). cbn [fst snd current_customer].
    split; [done|].
    apply select_customer_by_email_Some in Hsel as [Hk He].
    rewrite Hcust in Hk.
    destruct (decide (k = next_customer_id d)) as [->|Hne].
    + rewrite lookup_insert_eq in Hk. by injection Hk as <-.
    + rewrite lookup_insert_ne in Hk by done. by destruct (Hfree k c).
  - exfalso.
    apply (proj1 (select_customer_by_email_None _ _) Hsel (next_customer_id d)
             (Customers.mk name email phone now)); [|done].
    rewrite Hcust. apply lookup_insert_eq.
Qed.

(** Bob registers at the shop and logs in: customer number 2. *)
Lemma register_then_login_witness :
  current_customer
    (login_customer "bob@example.org"
       (mkState (register_customer "Bob" "bob@example.org" "555-0101" hour shop).2
                (register_customer "Bob" "bob@example.org" "555-0101" hour shop).2
                None [])).2
  = Some (mkCustomer 2 "Bob" "bob@example.org" "555-0101").
Proof.
  refine (proj2 (proj2 (proj2 (proj2 (proj2 (proj2 (proj2
    (register_then_login "Bob" "bob@example.org" "555-0101" hour shop
       (mkState (register_customer "Bob" "bob@example.org" "555-0101" hour shop).2
                (register_customer "Bob" "bob@example.org" "555-0101" hour shop).2
                None []) _ eq_refl)))))))).
  intros k c Hk. cbn in Hk.
  apply lookup_singleton_Some in Hk as [<- <-]. cbn. discriminate.
Defined.

Lemma register_customer_unique_emails (name email phone : string)
    (now : datetime) (d : database) :
  unique_emails d -> unique_emails (register_customer name email phone now d).2.
Proof.
  intros Huniq.
  destruct (select_customer_by_email email d) as [[k c]|] eqn:Hsel.
  - apply select_customer_by_email_Some in Hsel as [Hk He].
    rewrite register_customer_taken by eauto. done.
  - pose proof (proj1 (select_customer_by_email_None _ _) Hsel) as Hfree.
    rewrite (register_customer_new _ _ _ _ _ Hfree). cbn.
    intros k1 k2 c1 c2 H1 H2 He. cbn in H1, H2.
    destruct (decide (k1 = next_customer_id d)) as [->|N1],
             (decide (k2 = next_customer_id d)) as [->|N2]; [done|..].
    + rewrite lookup_insert_eq in H1. injection H1 as <-. cbn in He.
      rewrite lookup_insert_ne in H2 by done. by destruct (Hfree k2 c2).
    + rewrite lookup_insert_eq in H2. injection H2 as <-. cbn in He.
      rewrite lookup_insert_ne in H1 by done. by destruct (Hfree k1 c1).
    + rewrite lookup_insert_ne in H1, H2 by done. eauto.
Qed.

(** X11.  [register_customer] refuses an email that some customer already
    has and then changes nothing; and in every case, if no two customers
    shared an email before the call, none do after it. *)
Theorem register_customer_keeps_emails_unique (name email phone : string)
    (now : datetime) (d : database) :
  unique_emails d ->
  unique_emails (register_customer name email phone now d).2
  ∧ ((∃ k c, customers d !! k = Some c ∧ Customers.email c = email) ->
     register_customer name email phone now d = (false, d)).
Proof.
  intros Huniq. split; [|apply register_customer_taken].
  by apply register_customer_unique_emails.
Qed.

Lemma shop_unique_emails : unique_emails shop.
Proof.
  intros k1 k2 c1 c2 H1 H2 _. cbn in H1, H2.
  apply lookup_singleton_Some in H1 as [<- _].
  by apply lookup_singleton_Some in H2 as [<- _].
Qed.

(** A second registration under Ann's email is refused. *)
Lemma register_customer_keeps_emails_unique_witness :
  register_customer "Anna" "ann@example.org" "555-0102" hour shop = (false, shop).
Proof.
  refine (proj2 (register_customer_keeps_emails_unique "Anna" "ann@example.org"
                   "555-0102" hour shop shop_unique_emails) _).
  exists 1%Z, (Customers.mk "Ann" "ann@example.org" "555-0100" 0%Z).
  split; reflexivity.
Defined.

(** ** The report after a lifecycle call *)

Lemma sum_list_Permutation (l1 l2 : list Qc) : l1 ≡ₚ l2 -> sum_list l1 = sum_list l2.
Proof.
  unfold sum_list. induction 1 as [|x l l' _ IH|x y l|l l' l'' _ IH1 _ IH2]; cbn.
  - done.
  - by rewrite IH.
  - ring.
  - by rewrite IH1.
Qed.

Lemma all_rentals_insert (k : Z) (r : Rentals.row) (m : gmap Z Rentals.row) :
  m !! k = None -> (map_to_list (<[k := r]> m)).*2 ≡ₚ r :: (map_to_list m).*2.
Proof. intros Hk. by rewrite (map_to_list_insert _ _ _ Hk). Qed.

Lemma all_rentals_lookup (k : Z) (r : Rentals.row) (m : gmap Z Rentals.row) :
  m !! k = Some r -> (map_to_list m).*2 ≡ₚ r :: (map_to_list (delete k m)).*2.
Proof. intros Hk. by rewrite <- (map_to_list_delete _ _ _ Hk). Qed.

Lemma all_rentals_alter (f : Rentals.row -> Rentals.row) (k : Z) (r : Rentals.row)
    (m : gmap Z Rentals.row) :
  m !! k = Some r ->
  (map_to_list (alter f k m)).*2 ≡ₚ f r :: (map_to_list (delete k m)).*2.
Proof.
  intros Hk.
  assert (E : alter f k m = <[k := f r]> (delete k m)).
  { apply map_eq. intros i. destruct (decide (i = k)) as [->|Hne].
    - by rewrite lookup_alter_eq, lookup_insert_eq, Hk.
    - by rewrite lookup_alter_ne, lookup_insert_ne, lookup_delete_ne. }
  rewrite E. apply all_rentals_insert, lookup_delete_eq.
Qed.

(** What the report prints, in terms of [revenue], [rental_count] and
    [active_count]. *)
Lemma report_prints_the_figures (s : state) :
  ∃ evs, trace (generate_business_report s).2
         = trace s ++ evs ++
           [Print (BusinessReport (revenue (db s))
                     (Z.of_nat (rental_count (db s)))
                     (Z.of_nat (active_count (db s)))
                     (fst <$> select_popular_bike (db s))
                     (mean (omap Rentals.actual_duration_hours (all_rentals (db s)))))].
Proof.
  exists [Connect; Execute SELECT_sum_completed; Execute SELECT_count_rentals;
          Execute SELECT_count_active; Execute SELECT_popular_bike;
          Execute SELECT_avg_duration; Close].
  unfold generate_business_report, bind, get_connection, execute, close, print,
    emit; cbn.
  unfold select_sum_completed, select_avg_duration. rewrite or_0_sum, or_0_avg.
  unfold select_count_rentals, rental_count, all_rentals.
  rewrite length_fmap. by rewrite <- !app_assoc.
Qed.

(** X12.  A successful [rent_bike] adds one rental and one ACTIVE rental to
    the report's counts and leaves the revenue as it was. *)
Theorem report_after_rent_bike (now : datetime) (bike_id duration_hours : Z)
    (s s' : state) :
  rent_bike now bike_id duration_hours s = (true, s') ->
  rental_count (db s') = S (rental_count (db s))
  ∧ active_count (db s') = S (active_count (db s))
  ∧ revenue (db s') = revenue (db s).
Proof.
  intros Hrun. apply rent_bike_cases in Hrun
    as [([=] & _)|(_ & c & b & _ & _ & _ & _ & ->)].
  unfold rental_count, active_count, revenue, all_rentals.
  rewrite rented_rentals. cbn zeta.
  pose proof (all_rentals_insert _
    (Rentals.mk (customer_id c) bike_id now None duration_hours None
       (calculate_rental_cost
          (create_bike (bike_id, Bikes.bike_type b, Bikes.model b,
                        Bikes.hourly_rate b, Bikes.daily_rate b)) duration_hours)
       0
       (calculate_rental_cost
          (create_bike (bike_id, Bikes.bike_type b, Bikes.model b,
                        Bikes.hourly_rate b, Bikes.daily_rate b)) duration_hours)
       "ACTIVE") _ (next_rental_id_fresh (db s))) as Hperm.
  split; [by rewrite Hperm|]. split.
  - rewrite Hperm. by rewrite filter_cons_True.
  - apply sum_list_Permutation. rewrite Hperm. by rewrite filter_cons_False.
Qed.

Lemma report_after_rent_bike_witness :
  rental_count (db ann_riding) = 1%nat ∧ active_count (db ann_riding) = 1%nat
  ∧ revenue (db ann_riding) = 0.
Proof.
  destruct (report_after_rent_bike 0%Z 1 30 ann_logged_in ann_riding
              ltac:(vm_compute; reflexivity)) as (H1 & H2 & H3).
  rewrite H1, H2, H3. by vm_compute.
Defined.



(** ** The most popular bike type *)

Lemma order_desc_limit_1_max (groups : list (string * Z)) (g : string * Z) :
  order_desc_limit_1 groups = Some g ->
  g ∈ groups ∧ ∀ g', g' ∈ groups -> (g'.2 ≤ g.2)%Z.
Proof.
  revert g. induction groups as [|g0 gs IH]; intros g; cbn; [done|].
  destruct (order_desc_limit_1 gs) as [g1|] eqn:E.
  - destruct (IH g1 eq_refl) as [Hin Hmax].
    destruct (Z.ltb_spec g0.2 g1.2); intros [= <-].
    + split; [by right|]. intros g' [->|Hg']%elem_of_cons; [lia | by apply Hmax].
    + split; [by left|]. intros g' [->|Hg']%elem_of_cons; [lia|].
      specialize (Hmax g' Hg'). lia.
  - intros [= <-]. destruct gs as [|g2 gs]; [|cbn in E].
    + split; [by left|]. intros g' [->|Hg']%elem_of_cons; [lia|].
      by apply elem_of_nil in Hg'.
    + by destruct (order_desc_limit_1 gs) as [g3|]; [destruct (g2.2 <? g3.2)%Z|].
Qed.

(** X14.  When the report names a most popular bike type, that type has at
    least one rental and no bike type has more rentals (counted through the
    rentals' bikes); it names none exactly when no rental has a stored
    bike. *)
Theorem popular_bike_has_the_most_rentals (d : database) :
  match select_popular_bike d with
  | Some (t, n) =>
      n = rentals_of_type t d ∧ (0 < n)%Z ∧ ∀ t', (rentals_of_type t' d ≤ n)%Z
  | None => joined_bike_types d = []
  end.
Proof.
  unfold select_popular_bike, rentals_of_type.
  set (l := joined_bike_types d).
  destruct (order_desc_limit_1 (group_count l)) as [[t n]|] eqn:E.
  - apply order_desc_limit_1_max in E as [Hin Hmax]. unfold group_count in *.
    apply list_elem_of_fmap in Hin as (t0 & [= -> ->] & Ht0).
    apply (proj1 (elem_of_remove_dups _ _)) in Ht0.
    split; [done|]. split.
    + assert (Hself : t0 ∈ filter (λ x, x = t0) l)
        by (apply list_elem_of_filter; split; [reflexivity | exact Ht0]).
      destruct (filter (λ x, x = t0) l); [by apply elem_of_nil in Hself | cbn; lia].
    + intros t'. destruct (decide (t' ∈ l)) as [Hin|Hout].
      * apply (Hmax (t', _)). apply list_elem_of_fmap. exists t'.
        split; [done|]. by apply elem_of_remove_dups.
      * assert (filter (λ x, x = t') l = []) as ->.
        { destruct (filter (λ x, x = t') l) as [|x f] eqn:Ef; [done|].
          assert (Hx : x ∈ filter (λ x, x = t') l) by (rewrite Ef; by left).
          apply list_elem_of_filter in Hx as [-> Hx]. done. }
        cbn. lia.
  - destruct l as [|t l']; [done|]. exfalso.
    unfold group_count in E. cbn in E.
    case_decide; cbn in E.
    + destruct (remove_dups l') as [|t1 rest] eqn:Er.
      * assert (Ht : t ∈ remove_dups l') by (by apply elem_of_remove_dups).
        rewrite Er in Ht. by apply elem_of_nil in Ht.
      * cbn in E. by destruct (order_desc_limit_1 _) as [g|]; [destruct (_ <? _)%Z|].
    + by destruct (order_desc_limit_1 _) as [g|]; [destruct (_ <? _)%Z|].
Qed.

(** ** The list of available bikes *)

#[local] Instance by_id_total {V} : Total (@by_id V).
Proof. intros x y. unfold by_id. lia. Qed.

#[local] Instance by_id_trans {V} : Transitive (@by_id V).
Proof. intros x y z. unfold by_id. lia. Qed.

Lemma elem_of_rows_by_id {V} (m : gmap Z V) (k : Z) (v : V) :
  (k, v) ∈ rows_by_id m <-> m !! k = Some v.
Proof.
  unfold rows_by_id. rewrite merge_sort_Permutation. apply elem_of_map_to_list.
Qed.

Lemma StronglySorted_filter {A} (R : relation A) (P : A -> Prop)
    `{∀ x, Decision (P x)} (l : list A) :
  StronglySorted R l -> StronglySorted R (filter P l).
Proof.
  induction 1 as [|x l Hl IH Hx]; [constructor|].
  rewrite filter_cons. case_decide; [|done].
  constructor; [done|]. apply Forall_forall. intros y Hy%list_elem_of_filter.
  rewrite Forall_forall in Hx. apply Hx. tauto.
Qed.

Lemma available_ids (d : database) :
  bike_id <$> get_available_bikes d
  = (filter (λ kv, Bikes.is_available kv.2 = true) (rows_by_id (bikes d))).*1.
Proof.
  unfold get_available_bikes. rewrite <- list_fmap_compose.
  by apply list_fmap_ext.
Qed.

Lemma available_bikes_listing_aux (d : database) (bike : Bike Qc) :
  bike ∈ get_available_bikes d <->
  ∃ id b, bikes d !! id = Some b ∧ Bikes.is_available b = true
          ∧ bike = create_bike (id, Bikes.bike_type b, Bikes.model b,
                                Bikes.hourly_rate b, Bikes.daily_rate b).
Proof.
  unfold get_available_bikes. rewrite list_elem_of_fmap. split.
  - intros ([id b] & -> & [Ha Hin]%list_elem_of_filter).
    apply elem_of_rows_by_id in Hin. by exists id, b.
  - intros (id & b & Hb & Ha & ->). exists (id, b). split; [done|].
    apply list_elem_of_filter. split; [done|]. by apply elem_of_rows_by_id.
Qed.

(** X15.  [get_available_bikes] lists exactly the stored bikes flagged
    available, each as the object [create_bike] makes of its row, once each
    and in ascending id order. *)
Theorem available_bikes_listing (d : database) :
  (∀ bike, bike ∈ get_available_bikes d <->
     ∃ id b, bikes d !! id = Some b ∧ Bikes.is_available b = true
             ∧ bike = create_bike (id, Bikes.bike_type b, Bikes.model b,
                                   Bikes.hourly_rate b, Bikes.daily_rate b))
  ∧ StronglySorted Z.le (bike_id <$> get_available_bikes d)
  ∧ NoDup (bike_id <$> get_available_bikes d).
Proof.
  split; [|split].
  - intros bike. apply available_bikes_listing_aux.
  - rewrite available_ids. apply (StronglySorted_fmap fst by_id Z.le); [done|].
    apply StronglySorted_filter, StronglySorted_merge_sort; apply _.
  - rewrite available_ids.
    eapply sublist_NoDup; [|apply fmap_sublist, sublist_filter; apply _].
    unfold rows_by_id. rewrite merge_sort_Permutation.
    apply NoDup_fst_map_to_list.
Qed.

(** X16.  After a successful [rent_bike] the list of available bikes is the
    former list without the rented bike; after a successful [return_bike] it
    is the former list together with the returned bike. *)
Theorem available_bikes_after_lifecycle (now : datetime) (bid hours rid : Z)
    (s s' : state) (bike : Bike Qc) :
  (rent_bike now bid hours s = (true, s') ->
     (bike ∈ get_available_bikes (db s') <->
      bike ∈ get_available_bikes (db s) ∧ bike_id bike ≠ bid))
  ∧ (return_bike now rid s = (true, s') ->
     ∃ r b, rentals (db s) !! rid = Some r
            ∧ bikes (db s) !! Rentals.bike_id r = Some b
            ∧ (bike ∈ get_available_bikes (db s') <->
               bike ∈ get_available_bikes (db s)
               ∨ bike = create_bike (Rentals.bike_id r, Bikes.bike_type b,
                                     Bikes.model b, Bikes.hourly_rate b,
                                     Bikes.daily_rate b))).
Proof.
  pose proof (λ d, proj1 (available_bikes_listing_aux d bike)) as Hto.
  pose proof (λ d, proj2 (available_bikes_listing_aux d bike)) as Hfrom.
  split; intros Hrun.
  - apply rent_bike_cases in Hrun
      as [([=] & _)|(_ & c & b & _ & _ & Hb & Ha & ->)].
    split.
    + intros (id & b' & Hb' & Ha' & ->)%Hto. rewrite rented_bikes in Hb'.
      destruct (decide (id = bid)) as [->|Hne].
      * rewrite lookup_alter_eq, Hb in Hb'. injection Hb' as <-. by destruct b.
      * rewrite lookup_alter_ne in Hb' by done. split; [|done].
        apply Hfrom. by exists id, b'.
    + intros [(id & b' & Hb' & Ha' & ->)%Hto Hne]. cbn in Hne.
      apply Hfrom. exists id, b'. rewrite rented_bikes.
      by rewrite lookup_alter_ne.
  - apply return_bike_cases in Hrun
      as [([=] & _)|(_ & c & r & b & _ & Hr & _ & _ & Hb & ->)].
    exists r, b. do 2 (split; [done|]). split.
    + intros (id & b' & Hb' & Ha' & ->)%Hto. rewrite returned_bikes in Hb'.
      destruct (decide (id = Rentals.bike_id r)) as [->|Hne].
      * rewrite lookup_alter_eq, Hb in Hb'. injection Hb' as <-. by right.
      * rewrite lookup_alter_ne in Hb' by done. left.
        apply Hfrom. by exists id, b'.
    + intros [(id & b' & Hb' & Ha' & ->)%Hto | ->]; apply Hfrom.
      * destruct (decide (id = Rentals.bike_id r)) as [->|Hne].
        -- exists (Rentals.bike_id r), (Bikes.set_is_available true b).
           rewrite returned_bikes, lookup_alter_eq, Hb.
           assert (b' = b) as -> by congruence.
           split; [done|]. split; [done|]. by destruct b.
        -- exists id, b'. by rewrite returned_bikes, lookup_alter_ne.
      * exists (Rentals.bike_id r), (Bikes.set_is_available true b).
        rewrite returned_bikes, lookup_alter_eq, Hb. by destruct b.
Qed.

(** While Ann rides the Trek it is not on offer; the Giant still is. *)
Lemma available_bikes_after_lifecycle_witness :
  ¬ trek ∈ get_available_bikes (db ann_riding)
  ∧ create_bike (2%Z, "Road"%string, "Giant Defy"%string, Q2Qc 12.0, Q2Qc 65.0)
    ∈ get_available_bikes (db ann_riding).
Proof.
  split.
  - intros Hin.
    apply (proj1 (available_bikes_after_lifecycle 0%Z 1 30 0 ann_logged_in ann_riding
                    trek) ltac:(vm_compute; reflexivity)) in Hin as [_ Hne].
    by apply Hne.
  - apply (proj1 (available_bikes_after_lifecycle 0%Z 1 30 0 ann_logged_in ann_riding
                    _) ltac:(vm_compute; reflexivity)).
    split; [|discriminate].
    apply available_bikes_listing_aux.
    exists 2%Z, (Bikes.mk "Road" "Giant Defy" (Q2Qc 12.0) (Q2Qc 65.0) true
                          (Some "2024-01-20"%string)).
    split; [vm_compute; reflexivity|]. by split.
Defined.

(** ** More on pricing *)

Lemma surcharge_resolved (ty : string) :
  surcharge (spec_resolve ty)
  = if decide (ty = "Electric"%string) then Q2Qc 2.0 else 0.
Proof. unfold spec_resolve. by repeat case_decide; subst. Qed.

Lemma threshold_small (c : category) : (0 < threshold c < 24)%Z.
Proof. destruct c; cbn; lia. Qed.

Lemma remainder_factor_range (c : category) :
  0 ≤ remainder_factor c ∧ remainder_factor c ≤ 1.
Proof. by destruct c. Qed.

Lemma surcharge_nonneg (c : category) : 0 ≤ surcharge c.
Proof. by destruct c. Qed.

(** X17.  A rental of whole days is charged the daily rate per day and
    nothing else, whatever the hourly rate and the stored label, except that
    an Electric bike also pays its battery fee of 2.0 per hour. *)
Theorem whole_days_cost_the_daily_rate (id : Z) (ty m : string)
    (hourlyRate dailyRate : Qc) (days : Z) :
  (0 < days)%Z ->
  calculate_rental_cost (create_bike (id, ty, m, hourlyRate, dailyRate)) (24 * days)
  = Qc_of_Z days * dailyRate
    + (if decide (ty = "Electric"%string) then Qc_of_Z (24 * days) * Q2Qc 2.0 else 0).
Proof.
  intros Hd. rewrite cost_of_created. unfold spec_cost.
  pose proof (threshold_small (spec_resolve ty)).
  case_decide; [lia|]. rewrite floor_div_24, surcharge_resolved.
  rewrite (Z.mul_comm 24 days), Z.div_mul, Z.mod_mul by lia.
  rewrite Z2Qc_inj_0. case_decide; ring.
Qed.

(** The sample price for 24 hours shown with each bike. *)
Lemma whole_days_cost_the_daily_rate_witness :
  calculate_rental_cost trek (24 * 1) = Qc_of_Z 1 * Q2Qc 80.0 + 0.
Proof.
  apply (whole_days_cost_the_daily_rate 1 "Mountain" "Trek X-Caliber"
           (Q2Qc 15.0) (Q2Qc 80.0) 1).
  lia.
Defined.

(** X18.  With rates that are not negative, no cost function ever quotes a
    negative price for a duration that is not negative. *)
Theorem cost_is_never_negative (id : Z) (ty m : string)
    (hourlyRate dailyRate : Qc) (hours : Z) :
  0 ≤ hourlyRate -> 0 ≤ dailyRate -> (0 ≤ hours)%Z ->
  0 ≤ calculate_rental_cost (create_bike (id, ty, m, hourlyRate, dailyRate)) hours.
Proof.
  intros Hh Hd Hn. rewrite cost_of_created. unfold spec_cost.
  destruct (remainder_factor_range (spec_resolve ty)) as [Hf _].
  pose proof (surcharge_nonneg (spec_resolve ty)) as Hs.
  rewrite floor_div_24.
  assert (0 ≤ hours / 24)%Z by (apply Z.div_pos; lia).
  assert (0 ≤ hours mod 24)%Z by (apply Z.mod_pos_bound; lia).
  apply Qc_add_nonneg;
    [|apply Qc_mul_nonneg; [apply Qc_of_Z_nonneg|]; assumption].
  case_decide.
  - apply Qc_mul_nonneg; [apply Qc_of_Z_nonneg|]; assumption.
  - apply Qc_add_nonneg.
    + apply Qc_mul_nonneg; [apply Qc_of_Z_nonneg|]; assumption.
    + apply Qc_mul_nonneg; [apply Qc_mul_nonneg; [apply Qc_of_Z_nonneg|]|];
        assumption.
Qed.

Lemma cost_is_never_negative_witness : 0 ≤ calculate_rental_cost trek 30.
Proof.
  apply (cost_is_never_negative 1 "Mountain" "Trek X-Caliber" (Q2Qc 15.0) (Q2Qc 80.0) 30);
    by vm_compute.
Defined.



(** ** Every state the program can reach *)

Lemma login_customer_db (email : string) (s : state) :
  db (login_customer email s).2 = db s.
Proof.
  destruct (select_customer_by_email email (db s)) as [[k c]|] eqn:Hsel.
  - by rewrite (login_customer_found _ _ _ _ Hsel).
  - by rewrite (login_customer_missing _ _ Hsel).
Qed.

Lemma generate_business_report_db (s : state) :
  db (generate_business_report s).2 = db s.
Proof. reflexivity. Qed.

Lemma rent_bike_db (now : datetime) (bike_id h : Z) (s : state) :
  db (rent_bike now bike_id h s).2 = db s
  ∨ ∃ c b, bikes (db s) !! bike_id = Some b ∧ Bikes.is_available b = true
           ∧ (rent_bike now bike_id h s).2 = rented now bike_id h c b s.
Proof.
  destruct (rent_bike now bike_id h s) as [ok s'] eqn:Hrun.
  apply rent_bike_cases in Hrun as [(_ & ? & _)|(_ & c & b & _ & _ & ? & ? & ->)];
    [by left | right; by exists c, b].
Qed.

Lemma return_bike_db (now : datetime) (rental_id : Z) (s : state) :
  db (return_bike now rental_id s).2 = db s
  ∨ ∃ c r b, rentals (db s) !! rental_id = Some r ∧ active r
             ∧ (return_bike now rental_id s).2 = returned now rental_id c r b s.
Proof.
  destruct (return_bike now rental_id s) as [ok s'] eqn:Hrun.
  apply return_bike_cases in Hrun
    as [(_ & ? & _)|(_ & c & r & b & _ & ? & _ & ? & _ & ->)];
    [by left | right; by exists c, r, b].
Qed.

Lemma register_customer_rentals_bikes name email phone now d :
  rentals (register_customer name email phone now d).2 = rentals d
  ∧ bikes (register_customer name email phone now d).2 = bikes d.
Proof. unfold register_customer. by destruct (select_customer_by_email email d). Qed.

Lemma perform_sound (s : state) (c : call) : sound (db s) -> sound (db (perform s c)).
Proof.
  intros (Hc & Ha & Hu). destruct c as [n e p t|e|t b h|t r|]; cbn [perform].
  - destruct (register_customer_rentals_bikes n e p t (db s)) as [Er Eb].
    split; [|split]; cbn [db].
    + unfold consistent. by rewrite Er, Eb.
    + unfold costs_add_up. by rewrite Er.
    + by apply register_customer_unique_emails.
  - by rewrite login_customer_db.
  - destruct (rent_bike_db t b h s) as [->|(c & b0 & Hb & Hav & ->)]; [done|].
    split; [by apply rented_consistent|]. split; [by apply rented_costs_add_up|].
    unfold unique_emails. by rewrite rented_customers.
  - destruct (return_bike_db t r s) as [->|(c & r0 & b0 & Hr & Hact & ->)]; [done|].
    split; [by apply returned_consistent|].
    split; [by apply returned_costs_add_up|].
    unfold unique_emails. by rewrite returned_customers.
  - by rewrite generate_business_report_db.
Qed.

Lemma shop_sound : sound shop.
Proof.
  split; [apply shop_consistent|]. split; [apply shop_costs_add_up|].
  apply shop_unique_emails.
Qed.

(** X20.  Whatever calls are made, in whatever order and with whatever
    arguments, a store that was sound stays sound: bikes are unavailable
    exactly while an ACTIVE rental refers to them, no bike has two ACTIVE
    rentals, every total is base cost plus additional charges, and no two
    customers share an email. *)
Theorem every_reachable_store_is_sound (cs : list call) (s : state) :
  sound (db s) -> sound (db (perform_all cs s)).
Proof.
  revert s. induction cs as [|c cs IH]; intros s Hs; [done|].
  cbn. apply IH. by apply perform_sound.
Qed.

(** From the seeded shop: two registrations under one email, logins, a rental
    the second customer cannot return, a double booking attempt, a report. *)
Lemma every_reachable_store_is_sound_witness :
  sound (db (perform_all
               [Register "Bob" "bob@example.org" "555-0101" 0%Z;
                Register "Rob" "bob@example.org" "555-0102" 0%Z;
                Login "ann@example.org"; Rent hour 1 30; Rent hour 1 2;
                Login "bob@example.org"; Return (2 * hour)%Z 1; Rent hour 2 5;
                Report; Return (9 * hour)%Z 2]
               nobody_logged_in)).
Proof.
  apply (every_reachable_store_is_sound _ nobody_logged_in). apply shop_sound.
Defined.

(** X21.  In a consistent store a bike that has an ACTIVE rental cannot be
    rented again: [rent_bike] on it returns False and changes nothing. *)
Theorem no_double_booking (now : datetime) (bike_id duration_hours : Z)
    (s : state) (k : Z) (r : Rentals.row) :
  consistent (db s) ->
  rentals (db s) !! k = Some r -> active r -> Rentals.bike_id r = bike_id ->
  (rent_bike now bike_id duration_hours s).1 = false
  ∧ db (rent_bike now bike_id duration_hours s).2 = db s.
Proof.
  intros (HA & _ & _) Hk Hact Hbid.
  destruct (HA k r Hk Hact) as (b & Hb & Hav). rewrite Hbid in Hb.
  destruct (rent_bike now bike_id duration_hours s) as [ok s'] eqn:Hrun.
  apply rent_bike_cases in Hrun
    as [(-> & E & _)|(_ & c & b' & _ & _ & Hb' & Hav' & _)]; [done|].
  congruence.
Qed.

Lemma no_double_booking_witness :
  (rent_bike (2 * hour)%Z 1 4 ann_riding).1 = false
  ∧ db (rent_bike (2 * hour)%Z 1 4 ann_riding).2 = db ann_riding.
Proof.
  apply (no_double_booking (2 * hour)%Z 1 4 ann_riding 1
           (Rentals.mk 1 1 0%Z None 30 None (Q2Qc 152) 0 (Q2Qc 152) "ACTIVE")).
  - apply (rented_consistent 0%Z 1 30 ann
             (Bikes.mk "Mountain" "Trek X-Caliber" (Q2Qc 15.0) (Q2Qc 80.0) true
                       (Some "2024-01-15"%string)) ann_logged_in);
      [vm_compute; reflexivity | reflexivity | apply shop_consistent].
  - vm_compute. reflexivity.
  - reflexivity.
  - reflexivity.
Defined.

(** X22.  In a consistent store the owner's ACTIVE rental can always be
    returned: the bike row the return needs is there. *)
Theorem active_rental_can_be_returned (now : datetime) (rental_id : Z)
    (s : state) (c : Customer) (r : Rentals.row) :
  consistent (db s) -> current_customer s = Some c ->
  rentals (db s) !! rental_id = Some r ->
  Rentals.customer_id r = customer_id c -> active r ->
  ∃ s', return_bike now rental_id s = (true, s')
        ∧ ¬ (∃ r', rentals (db s') !! rental_id = Some r' ∧ active r').
Proof.
  intros (HA & _ & _) Hc Hr Ho Hact.
  destruct (HA rental_id r Hr Hact) as (b & Hb & _).
  eexists. split.
  { by apply return_bike_found, select_active_rental_Some. }
  rewrite returned_rentals. cbn zeta. rewrite lookup_alter_eq, Hr.
  intros (r' & [= <-] & Hact'). by apply complete_rental_not_active in Hact'.
Qed.

Lemma active_rental_can_be_returned_witness :
  ∃ s', return_bike (3 * hour)%Z 1 ann_riding = (true, s')
        ∧ ¬ (∃ r', rentals (db s') !! 1%Z = Some r' ∧ active r').
Proof.
  apply (active_rental_can_be_returned (3 * hour)%Z 1 ann_riding ann
           (Rentals.mk 1 1 0%Z None 30 None (Q2Qc 152) 0 (Q2Qc 152) "ACTIVE")).
  - apply (rented_consistent 0%Z 1 30 ann
             (Bikes.mk "Mountain" "Trek X-Caliber" (Q2Qc 15.0) (Q2Qc 80.0) true
                       (Some "2024-01-15"%string)) ann_logged_in);
      [vm_compute; reflexivity | reflexivity | apply shop_consistent].
  - vm_compute. reflexivity.
  - vm_compute. reflexivity.
  - reflexivity.
  - reflexivity.
Defined.
